(** * DOI extraction of the scite browser extension (src/index.js)

    A shallow embedding of the DOI finder: the regular-expression helper
    [runRegexOnDoc], the eight finder functions and the loop [findDoi] that
    arbitrates between them.

    Conventions.
    - A JavaScript string is a sequence of UTF-16 code units.  The
      development covers pages whose code units are below 256, one [ascii]
      per code unit, so a JavaScript string is a Rocq [string].
    - The values the finders return ([undefined], [null], [false] or a
      string) are the constructors of [JsVal]; [truthy] is JavaScript's
      ToBoolean on them.
    - The page globals [docAsStr], [docTitle], [myHost] and [document] are
      the fields of the record [Page], passed to every function; the field
      [quirksMode] holds the mode of the document, on which the class
      selector [a.doi] depends. *)

From Stdlib Require Import Ascii String ZArith Lia.
From stdpp Require Import base option list strings gmap.

Local Open Scope Z_scope.

(** ** JavaScript values *)

Inductive JsVal : Type :=
| Undefined
| Null
| Bool (b : bool)
| Str (s : string).

(** ToBoolean. *)
Definition truthy (v : JsVal) : bool :=
  match v with
  | Undefined => false
  | Null => false
  | Bool b => b
  | Str s => negb (String.eqb s "")
  end.

(** [a === b]. *)
Definition strictEq (a b : JsVal) : bool :=
  match a, b with
  | Undefined, Undefined => true
  | Null, Null => true
  | Bool x, Bool y => Bool.eqb x y
  | Str x, Str y => String.eqb x y
  | _, _ => false
  end.

(** ** Code units *)

Definition code (c : ascii) : N := N_of_ascii c.

Definition inRange (lo hi : ascii) (c : ascii) : bool :=
  (code lo <=? code c)%N && (code c <=? code hi)%N.

(** LineTerminator: LF and CR (U+2028 and U+2029 are above 255). *)
Definition isLineTerminator (c : ascii) : bool :=
  (code c =? 10)%N || (code c =? 13)%N.

(** WhiteSpace or LineTerminator, what [\s] and [trim] use: TAB, LF, VT, FF,
    CR, SPACE and NBSP (the other members are above 255). *)
Definition isSpace (c : ascii) : bool :=
  ((9 <=? code c)%N && (code c <=? 13)%N) || (code c =? 32)%N || (code c =? 160)%N.

Definition isDigit (c : ascii) : bool := inRange "0" "9" c.

(** Simple case mappings on code units below 256.  The letters whose
    counterpart lies above 255 (U+00B5, U+00FF) or is not one code unit
    (U+00DF) stay as they are. *)
Definition toLowerChar (c : ascii) : ascii :=
  let n := code c in
  if ((65 <=? n) && (n <=? 90) || (192 <=? n) && (n <=? 214) || (216 <=? n) && (n <=? 222))%N
  then ascii_of_N (n + 32) else c.

Definition toUpperChar (c : ascii) : ascii :=
  let n := code c in
  if ((97 <=? n) && (n <=? 122) || (224 <=? n) && (n <=? 246) || (248 <=? n) && (n <=? 254))%N
  then ascii_of_N (n - 32) else c.

(** ** String methods *)

(** [String.prototype.toLowerCase]. *)
Fixpoint toLowerCase (s : string) : string :=
  match s with
  | EmptyString => EmptyString
  | String c s' => String (toLowerChar c) (toLowerCase s')
  end.

Fixpoint startsWith (pat s : string) : bool :=
  match pat, s with
  | EmptyString, _ => true
  | String a pat', String b s' => Ascii.eqb a b && startsWith pat' s'
  | String _ _, EmptyString => false
  end.

Fixpoint indexOfFrom (pat s : string) (i : Z) : Z :=
  if startsWith pat s then i
  else match s with
       | EmptyString => -1
       | String _ s' => indexOfFrom pat s' (i + 1)
       end.

(** [s.indexOf(pat)]: the first position at which [pat] occurs, or -1. *)
Definition indexOf (s pat : string) : Z := indexOfFrom pat s 0.

Fixpoint dropChars (n : nat) (s : string) : string :=
  match n, s with
  | O, _ => s
  | S n', String _ s' => dropChars n' s'
  | S _, EmptyString => EmptyString
  end.

(** [s.replace(pat, rep)] for a string pattern and a replacement without
    dollar sequences: the first occurrence of [pat] is replaced. *)
Fixpoint replace (pat rep s : string) : string :=
  if startsWith pat s then rep +:+ dropChars (String.length pat) s
  else match s with
       | EmptyString => EmptyString
       | String c s' => String c (replace pat rep s')
       end.

Fixpoint trimStart (s : string) : string :=
  match s with
  | EmptyString => EmptyString
  | String c s' => if isSpace c then trimStart s' else s
  end.

Fixpoint trimEnd (s : string) : string :=
  match s with
  | EmptyString => EmptyString
  | String c s' =>
      match trimEnd s' with
      | EmptyString => if isSpace c then EmptyString else String c EmptyString
      | t => String c t
      end
  end.

(** [String.prototype.trim]. *)
Definition trim (s : string) : string := trimEnd (trimStart s).

(** [Array.prototype.indexOf] on an array of strings. *)
Fixpoint arrayIndexOfFrom (x : string) (l : list string) (i : Z) : Z :=
  match l with
  | [] => -1
  | y :: l' => if String.eqb y x then i else arrayIndexOfFrom x l' (i + 1)
  end.

Definition arrayIndexOf (l : list string) (x : string) : Z := arrayIndexOfFrom x l 0.

(** ** Regular expressions

    The patterns of index.js use literals, the dot, classes, escapes [\s]
    and [\d], quantifiers applied to one-character atoms, and at most one
    capture group; [Regex] has exactly these forms. *)

Inductive ClassAtom : Type :=
| One (c : ascii)
| Range (lo hi : ascii)
| ClsDigit
| ClsSpace.

Inductive CharSet : Type :=
| Dot
| Class (invert : bool) (atoms : list ClassAtom).

Inductive Regex : Type :=
| Empty
| Chr (cs : CharSet)
| Seq (r1 r2 : Regex)
| Quant (greedy : bool) (lo : nat) (hi : option nat) (cs : CharSet)
| Group (r : Regex).

Record RegExp : Type := mkRegExp {
  pattern : Regex;
  ignoreCase : bool;
  global : bool
}.

Definition atomHas (a : ClassAtom) (c : ascii) : bool :=
  match a with
  | One x => Ascii.eqb x c
  | Range lo hi => inRange lo hi c
  | ClsDigit => isDigit c
  | ClsSpace => isSpace c
  end.

(** Membership of a code unit in the set an atom denotes.  With the [i] flag
    two code units are compared after Canonicalize, which on code units below
    256 is [toUpperChar]: [c] is found when the set holds [c] or its
    counterpart of the other case. *)
Definition atomFinds (ic : bool) (a : ClassAtom) (c : ascii) : bool :=
  if ic then atomHas a c || atomHas a (toUpperChar c) || atomHas a (toLowerChar c)
  else atomHas a c.

Definition charMatches (ic : bool) (cs : CharSet) (c : ascii) : bool :=
  match cs with
  | Dot => negb (isLineTerminator c)
  | Class invert atoms => xorb invert (existsb (fun a => atomFinds ic a c) atoms)
  end.

(** A literal run of characters. *)
Fixpoint lit (s : string) : Regex :=
  match s with
  | EmptyString => Empty
  | String c s' => Seq (Chr (Class false [One c])) (lit s')
  end.

(** The text of [s] before its suffix [rest]. *)
Definition consumed (s rest : string) : string :=
  substring 0 (String.length s - String.length rest) s.

Definition decr (hi : option nat) : option nat :=
  match hi with
  | Some n => Some (pred n)
  | None => None
  end.

Definition mayRepeat (hi : option nat) : bool :=
  match hi with
  | Some O => false
  | _ => true
  end.

Section Matcher.
Context {A : Type}.
Variable ic : bool.

(** A quantified one-character atom, with the continuation [k] run on the
    rest of the input: the greedy form tries one more repetition before it
    tries to stop, the lazy form the other way round. *)
Fixpoint repeatMatcher (greedy : bool) (lo : nat) (hi : option nat) (cs : CharSet)
    (s : string) (k : string -> option A) : option A :=
  let stop (_ : unit) := match lo with O => k s | S _ => None end in
  let more (_ : unit) :=
    match s with
    | EmptyString => None
    | String c s' =>
        if mayRepeat hi && charMatches ic cs c
        then repeatMatcher greedy (pred lo) (decr hi) cs s' k
        else None
    end in
  if greedy
  then match more tt with Some r => Some r | None => stop tt end
  else match stop tt with Some r => Some r | None => more tt end.

(** The backtracking matcher: [k] receives the rest of the input and the
    text captured by the group so far.  There is one capture slot, for
    group 1: the matcher is that of JavaScript for the patterns with at most
    one capture group, which the patterns of index.js are. *)
Fixpoint matcher (r : Regex) (s : string) (cap : option string)
    (k : string -> option string -> option A) : option A :=
  match r with
  | Empty => k s cap
  | Chr cs =>
      match s with
      | EmptyString => None
      | String c s' => if charMatches ic cs c then k s' cap else None
      end
  | Seq r1 r2 => matcher r1 s cap (fun s' cap' => matcher r2 s' cap' k)
  | Quant greedy lo hi cs => repeatMatcher greedy lo hi cs s (fun s' => k s' cap)
  | Group r' => matcher r' s cap (fun s' _ => k s' (Some (consumed s s')))
  end.
End Matcher.

(** The array a successful match yields: [m[0]] is the matched text, [m[1]]
    the text of the capture group when the pattern has one. *)
Definition MatchArray : Type := list string.

Definition matchAt (re : RegExp) (s : string) : option MatchArray :=
  matcher (ignoreCase re) (pattern re) s None
    (fun rest cap => Some (consumed s rest :: match cap with Some c => [c] | None => [] end)).

(** [re.exec(s)] started at position 0: the match at the leftmost position
    that has one, or [null].  That is [exec] for a pattern without the [g]
    flag, and for one with it whose [lastIndex] is 0, as on the fresh
    RegExp every regex literal of index.js evaluates to. *)
Fixpoint exec (re : RegExp) (s : string) : option MatchArray :=
  match matchAt re s with
  | Some m => Some m
  | None =>
      match s with
      | EmptyString => None
      | String _ s' => exec re s'
      end
  end.

(** The matched texts from left to right, the search resuming where the
    previous match ended ([skip] characters further on), or one character
    further on after an empty match. *)
Fixpoint matchAllFrom (re : RegExp) (s : string) (skip : nat) : list string :=
  match skip with
  | S n =>
      match s with
      | EmptyString => []
      | String _ s' => matchAllFrom re s' n
      end
  | O =>
      match matchAt re s with
      | Some m =>
          let m0 := hd "" m in
          m0 :: match s with
                | EmptyString => []
                | String _ s' => matchAllFrom re s' (pred (String.length m0))
                end
      | None =>
          match s with
          | EmptyString => []
          | String _ s' => matchAllFrom re s' 0
          end
      end
  end.

(** [s.match(re)]: with the [g] flag the array of all matched texts, or
    [null] when there is none; without it the result of [re.exec(s)]. *)
Definition stringMatch (s : string) (re : RegExp) : option MatchArray :=
  if global re
  then match matchAllFrom re s 0 with
       | [] => None
       | ms => Some ms
       end
  else exec re s.

(** ** The page *)

(** An element as the finders see it: its lower-case tag name, its
    attributes (names in lower case, as the HTML parser stores them) and its
    serialised content. *)
Record Element : Type := mkElement {
  tagName : string;
  attributes : list (string * string);
  innerHTML : string
}.

(** The globals read by the finders; [document] lists the elements of the
    page in tree order, the order [querySelectorAll] returns them in, and
    [quirksMode] tells whether the document is in quirks mode
    ([document.compatMode] is [BackCompat]), where class selectors compare
    class names without regard to ASCII letter case. *)
Record Page : Type := mkPage {
  docAsStr : string;
  docTitle : string;
  myHost : string;
  document : list Element;
  quirksMode : bool
}.

Fixpoint getAttribute (attrs : list (string * string)) (n : string) : option string :=
  match attrs with
  | [] => None
  | (k, v) :: attrs' => if String.eqb k n then Some v else getAttribute attrs' n
  end.

(** A reflected string property ([meta.name], [meta.scheme], [meta.content],
    [dataset.doi]): the attribute's value, the empty string without it. *)
Definition reflected (e : Element) (n : string) : string :=
  default "" (getAttribute (attributes e) n).

(** The tokens of a [class] attribute, separated by ASCII whitespace. *)
Definition isAsciiWhitespace (c : ascii) : bool :=
  ((code c =? 9) || (code c =? 10) || (code c =? 12) || (code c =? 13) || (code c =? 32))%N.

Fixpoint tokensFrom (s : string) (cur : string) : list string :=
  match s with
  | EmptyString => if String.eqb cur "" then [] else [cur]
  | String c s' =>
      if isAsciiWhitespace c
      then (if String.eqb cur "" then [] else [cur]) ++ tokensFrom s' ""
      else tokensFrom s' (cur +:+ String c "")
  end.

Definition classList (e : Element) : list string := tokensFrom (reflected e "class") "".

(** The four selectors of index.js. *)
Inductive Selector : Type :=
| SelMeta        (* meta *)
| SelDataDoi     (* *[data-doi] *)
| SelADoi        (* a.doi *)
| SelARefDoi.    (* a[ref='aid_type=doi'] *)

Definition asciiLowerChar (c : ascii) : ascii :=
  if ((65 <=? code c) && (code c <=? 90))%N then ascii_of_N (code c + 32) else c.

Fixpoint asciiLowerCase (s : string) : string :=
  match s with
  | EmptyString => EmptyString
  | String c s' => String (asciiLowerChar c) (asciiLowerCase s')
  end.

(** A class name of a selector against a token of a [class] attribute:
    identical, or in quirks mode identical up to ASCII letter case. *)
Definition classNameMatches (quirks : bool) (name token : string) : bool :=
  if quirks then String.eqb (asciiLowerCase name) (asciiLowerCase token)
  else String.eqb name token.

Definition selects (quirks : bool) (sel : Selector) (e : Element) : bool :=
  match sel with
  | SelMeta => String.eqb (tagName e) "meta"
  | SelDataDoi => bool_decide (is_Some (getAttribute (attributes e) "data-doi"))
  | SelADoi =>
      String.eqb (tagName e) "a" && existsb (classNameMatches quirks "doi") (classList e)
  | SelARefDoi =>
      String.eqb (tagName e) "a" &&
      match getAttribute (attributes e) "ref" with
      | Some v => String.eqb v "aid_type=doi"
      | None => false
      end
  end.

Definition querySelectorAll (p : Page) (sel : Selector) : list Element :=
  List.filter (selects (quirksMode p) sel) (document p).

(** ** runRegexOnDoc *)

Definition runRegexOnDoc (p : Page) (re : RegExp) (host : JsVal) : JsVal :=
  if negb (truthy host) || strictEq host (Str (myHost p))
  then match exec re (docAsStr p) with
       | Some m =>
           if (1 <? Z.of_nat (length m))
           then match m !! 1%nat with Some g => Str g | None => Undefined end
           else Bool false
       | None => Bool false
       end
  else Bool false.

(** ** findDoiFromMetaTags *)

Definition doiMetaNames : list string :=
  [ "citation_doi"; "doi"; "dc.doi"; "dc.identifier"; "dc.identifier.doi";
    "bepress_citation_doi"; "rft_id"; "dcsext.wt_doi" ].

(** One call of the [forEach] callback: [doi] is the variable the callback
    assigns, [myMeta] the element visited. *)
Definition metaStep (doi : JsVal) (myMeta : Element) : JsVal :=
  if negb (truthy (Str (reflected myMeta "name"))) then doi
  else if arrayIndexOf doiMetaNames (toLowerCase (reflected myMeta "name")) <? 0 then doi
  else if truthy (Str (reflected myMeta "scheme"))
          && negb (strictEq (Str (reflected myMeta "scheme")) (Str "doi")) then doi
  else
    let doiCandidate := trim (replace "doi:" "" (reflected myMeta "content")) in
    if indexOf doiCandidate "10." =? 0 then Str doiCandidate else doi.

Definition findDoiFromMetaTags (p : Page) : JsVal :=
  let metas := querySelectorAll p SelMeta in
  let doi := fold_left metaStep metas Undefined in
  if negb (truthy doi) then Null else doi.

(** ** findDoiFromDataDoiAttributes *)

Definition findDoiFromDataDoiAttributes (p : Page) : JsVal :=
  let dataDoiNodes := querySelectorAll p SelDataDoi in
  let dataDoiValues := map (fun node => reflected node "data-doi") dataDoiNodes in
  let numUniqueDois := size (list_to_set dataDoiValues : gset string) in
  if Nat.eqb numUniqueDois 1
  then match dataDoiValues !! 0%nat with Some v => Str v | None => Undefined end
  else Null.

(** ** The host-specific finders *)

Definition cls (atoms : list ClassAtom) : CharSet := Class false atoms.
Definition notCls (atoms : list ClassAtom) : CharSet := Class true atoms.
Definition star (cs : CharSet) : Regex := Quant true 0 None cs.
Definition plus (cs : CharSet) : Regex := Quant true 1 None cs.
Definition lazyStar (cs : CharSet) : Regex := Quant false 0 None cs.

Fixpoint seqs (rs : list Regex) : Regex :=
  match rs with
  | [] => Empty
  | r :: rs' => Seq r (seqs rs')
  end.

(** /SDM.doi\s*=\s*'([^']+)'/ *)
Definition reScienceDirectVar : RegExp :=
  mkRegExp
    (seqs [ lit "SDM"; Chr Dot; lit "doi"; star (cls [ClsSpace]); lit "=";
            star (cls [ClsSpace]); lit "'"; Group (plus (notCls [One "'"])); lit "'" ])
    false false.

(** /doi\.org\/(.+)/ *)
Definition reDoiOrg : RegExp :=
  mkRegExp (seqs [ lit "doi.org/"; Group (plus Dot) ]) false false.

(** /'doi':'([^']+)'/ *)
Definition reIeee : RegExp :=
  mkRegExp (seqs [ lit "'doi':'"; Group (plus (notCls [One "'"])); lit "'" ]) false false.

(** /Document Object Identifier \(DOI\): (10.*?)<\/p>/ *)
Definition reNumber : RegExp :=
  mkRegExp
    (seqs [ lit "Document Object Identifier (DOI): ";
            Group (Seq (lit "10") (lazyStar Dot)); lit "</p>" ])
    false false.

(** /href='\/doi\/10\.(.+)/ *)
Definition rePsycnet : RegExp :=
  mkRegExp (seqs [ lit "href='/doi/10."; Group (plus Dot) ]) false false.

(** /(10.\d{4,9}\/[-._;()\/:A-Z0-9]+)/ig *)
Definition reTitle : RegExp :=
  mkRegExp
    (Group (seqs [ lit "10"; Chr Dot; Quant true 4 (Some 9%nat) (cls [ClsDigit]); lit "/";
                   plus (cls [ One "-"; One "."; One "_"; One ";"; One "("; One ")";
                              One "/"; One ":"; Range "A" "Z"; Range "0" "9" ]) ]))
    true true.

Definition findDoiFromScienceDirect (p : Page) : JsVal :=
  if indexOf (myHost p) "sciencedirect" <? 0 then Null
  else
    let doi := runRegexOnDoc p reScienceDirectVar Undefined in
    if truthy doi then doi
    else
      let doiLinkElem := querySelectorAll p SelADoi in
      match doiLinkElem with
      | [] => Undefined
      | first :: _ =>
          match stringMatch (innerHTML first) reDoiOrg with
          | Some m =>
              if (1 <? Z.of_nat (length m))
              then match m !! 1%nat with Some g => Str g | None => Undefined end
              else Undefined
          | None => Undefined
          end
      end.

Definition findDoiFromIeee (p : Page) : JsVal :=
  runRegexOnDoc p reIeee (Str "ieeexplore.ieee.org").

Definition findDoiFromNumber (p : Page) : JsVal :=
  runRegexOnDoc p reNumber (Str "www.nber.org").

Definition findDoiFromPubmed (p : Page) : JsVal :=
  if indexOf (myHost p) "www.ncbi.nlm.nih.gov" <? 0 then Null
  else
    let doiLinkElem := querySelectorAll p SelARefDoi in
    match doiLinkElem with
    | [] => Undefined
    | first :: _ => Str (innerHTML first)
    end.

Definition findDoiFromPsycnet (p : Page) : JsVal :=
  let re := rePsycnet in
  runRegexOnDoc p re (Str "psycnet.apa.org").

Definition findDoiFromTitle (p : Page) : JsVal :=
  let re := reTitle in
  match stringMatch (docTitle p) re with
  | Some doi => match doi !! 0%nat with Some d => Str d | None => Undefined end
  | None => Null
  end.

(** ** findDoi *)

Definition Finder : Type := Page -> JsVal.

Definition doiFinderFunctions : list Finder :=
  [ findDoiFromMetaTags;
    findDoiFromDataDoiAttributes;
    findDoiFromScienceDirect;
    findDoiFromIeee;
    findDoiFromNumber;
    findDoiFromPsycnet;
    findDoiFromPubmed;
    findDoiFromTitle ].

(** The [for] loop over the finders from index [i] on.  Beside the value
    returned, the run records the indices of the finders it called, in the
    order of the calls. *)
Fixpoint tryFinders (fs : list Finder) (i : nat) (p : Page) : JsVal * list nat :=
  match fs with
  | [] => (Undefined, [])
  | f :: fs' =>
      let myDoi := f p in
      if truthy myDoi then (myDoi, [i])
      else let '(v, called) := tryFinders fs' (S i) p in (v, i :: called)
  end.

Definition findDoi (p : Page) : JsVal := fst (tryFinders doiFinderFunctions 0 p).

(** The finders one run of [findDoi] calls. *)
Definition findDoiCalls (p : Page) : list nat := snd (tryFinders doiFinderFunctions 0 p).

(** ** popupDoi, main, runWithDelay *)

(** The element [popupDoi] creates and hands to [render] together with the
    [Tally] component: its tag, the [scrolling] and [id] properties the
    function sets, and the [doi] property of the component rendered into
    it. *)
Record Popup : Type := mkPopup {
  popupTag : string;
  popupScrolling : string;
  popupId : string;
  tallyDoi : JsVal
}.

(** The state [popupDoi] reads and writes: the flag [poppedUp] and the
    popups appended to [document.documentElement], oldest first. *)
Record Ui : Type := mkUi {
  poppedUp : bool;
  appended : list Popup
}.

(** The state when the script is loaded ([let poppedUp = false]). *)
Definition initialUi : Ui := mkUi false [].

(** [popupDoi(doi)]: the new state and the value returned. *)
Definition popupDoi (ui : Ui) (doi : JsVal) : Ui * JsVal :=
  let popup := mkPopup "div" "no" "scite-popup-app" doi in
  if poppedUp ui then (ui, Bool false)
  else (mkUi true (appended ui ++ [popup]), Undefined).

(** [main()]. *)
Definition main (ui : Ui) (p : Page) : Ui :=
  let doi := findDoi p in
  if negb (truthy doi) then ui
  else fst (popupDoi ui doi).

(** [Array.prototype.includes] on an array of strings. *)
Definition arrayIncludes (l : list string) (x : string) : bool :=
  existsb (String.eqb x) l.

Definition longDelayHosts : list string := [ "psycnet.apa.org" ].

(** [runWithDelay()]: the delay, in milliseconds, [setTimeout] is called
    with; the callback is [main]. *)
Definition runWithDelay (p : Page) : Z :=
  let delay := 200 in
  let delay := if arrayIncludes longDelayHosts (myHost p) then 3000 else delay in
  delay.

(** * Specification vocabulary *)

(** ** The matcher against a declarative reading of the patterns *)

Fixpoint allChars (f : ascii -> bool) (s : string) : bool :=
  match s with
  | EmptyString => true
  | String c s' => f c && allChars f s'
  end.

Definition within (hi : option nat) (n : nat) : Prop :=
  match hi with
  | Some h => (n <= h)%nat
  | None => True
  end.

(** [Matches ic r w cap cap']: the pattern [r] matches exactly the text [w]
    and leaves the capture [cap'] when entered with the capture [cap]. *)
Fixpoint Matches (ic : bool) (r : Regex) (w : string) (cap cap' : option string) : Prop :=
  match r with
  | Empty => w = "" /\ cap' = cap
  | Chr cs => (exists c, w = String c "" /\ charMatches ic cs c = true) /\ cap' = cap
  | Seq r1 r2 =>
      exists w1 w2 cap1,
        w = w1 +:+ w2 /\ Matches ic r1 w1 cap cap1 /\ Matches ic r2 w2 cap1 cap'
  | Quant _ lo hi cs =>
      allChars (charMatches ic cs) w = true /\
      (lo <= String.length w)%nat /\ within hi (String.length w) /\ cap' = cap
  | Group r' => (exists c, Matches ic r' w cap c) /\ cap' = Some w
  end.

(** The texts a pattern matches. *)
Definition Lang (re : RegExp) (w : string) : Prop :=
  exists cap, Matches (ignoreCase re) (pattern re) w None cap.

(** The pattern matches somewhere in [s]. *)
Definition Occurs (re : RegExp) (s : string) : Prop :=
  exists pre w post, s = pre +:+ w +:+ post /\ Lang re w.

Definition matchArray (w : string) (cap : option string) : MatchArray :=
  w :: match cap with Some c => [c] | None => [] end.

(** ** Outcomes *)

(** A finder's value counts as a found DOI when [findDoi]'s test [if (myDoi)]
    passes on it, and as not found otherwise. *)
Definition Found (v : JsVal) : Prop := truthy v = true.
Definition NotFound (v : JsVal) : Prop := truthy v = false.

(** [pat] occurs in [s]. *)
Definition Contains (s pat : string) : Prop :=
  exists pre post, s = pre +:+ pat +:+ post.

(** Every finder yields [undefined], [null], [false] or a string, never
    [true]. *)
Definition plainResult (v : JsVal) : Prop := v <> Bool true.

(** ** Meta elements *)

(** A qualifying element: a [meta] whose name, in lower case, is on the
    allow-list, and which declares no scheme other than [doi]. *)
Definition namedForDoi (e : Element) : bool :=
  String.eqb (tagName e) "meta" &&
  bool_decide (toLowerCase (reflected e "name") ∈ doiMetaNames).

Definition schemeAllows (e : Element) : bool :=
  bool_decide (reflected e "scheme" = "" \/ reflected e "scheme" = "doi").

Definition qualifying (e : Element) : bool := namedForDoi e && schemeAllows e.

(** The content with the first [doi:] removed, then trimmed. *)
Definition candidateOf (e : Element) : string :=
  trim (replace "doi:" "" (reflected e "content")).

(** The DOI a qualifying element is accepted with, if any. *)
Definition metaDoi (e : Element) : option string :=
  if qualifying e && startsWith "10." (candidateOf e) then Some (candidateOf e) else None.

(** The accepted values of a page, in document order. *)
Definition acceptedDois (l : list Element) : list string := omap metaDoi l.

(** [p] with another list of elements. *)
Definition withDocument (p : Page) (l : list Element) : Page :=
  mkPage (docAsStr p) (docTitle p) (myHost p) l (quirksMode p).

(** ** Data attributes *)

(** The [data-doi] values of the elements that carry the attribute, in
    document order. *)
Definition dataDois (l : list Element) : list string :=
  omap (fun e => getAttribute (attributes e) "data-doi") l.

(** [v] is the one distinct value of a non-empty collection. *)
Definition OneDistinct (vals : list string) (v : string) : Prop :=
  vals <> [] /\ forall x, x ∈ vals -> x = v.

(** ** DOI-shaped text *)

Definition isDoiSuffixChar (c : ascii) : bool :=
  existsb (Ascii.eqb c) (list_ascii_of_string "-._;()/:")
  || inRange "A" "Z" c || inRange "a" "z" c || isDigit c.

(** [10], one character that is no line terminator, four to nine digits, a
    slash, and one or more characters of the suffix alphabet. *)
Definition DoiShaped (w : string) : Prop :=
  exists (c : ascii) (ds suf : string),
    w = "10" +:+ String c ds +:+ "/" +:+ suf /\
    isLineTerminator c = false /\
    allChars isDigit ds = true /\
    (4 <= String.length ds <= 9)%nat /\
    suf <> "" /\ allChars isDoiSuffixChar suf = true.

Definition HasDoiShape (t : string) : Prop :=
  exists pre w post, t = pre +:+ w +:+ post /\ DoiShaped w.

(** DOI-shaped text as the specification words it, with a literal dot after
    [10]: [10.], four to nine digits, a slash, and one or more characters of
    the suffix alphabet. *)
Definition SpecDoiShaped (w : string) : Prop :=
  exists ds suf : string,
    w = "10." +:+ ds +:+ "/" +:+ suf /\
    allChars isDigit ds = true /\
    (4 <= String.length ds <= 9)%nat /\
    suf <> "" /\ allChars isDoiSuffixChar suf = true.

Definition HasSpecDoiShape (t : string) : Prop :=
  exists pre w post, t = pre +:+ w +:+ post /\ SpecDoiShaped w.

(** A title without a dot that the pattern matches all the same. *)
Definition pageReportTitle : Page :=
  mkPage "" "Annual Report 10-2020/21" "example.org" [] false.

(** ** The content of a meta element, as the specification words it *)

(** A leading [doi:] is stripped. *)
Definition stripLeadingDoi (s : string) : string :=
  if startsWith "doi:" s then dropChars 4 s else s.

(** The candidate of the specification: the content without a leading
    [doi:] and without surrounding whitespace. *)
Definition specCandidateOf (e : Element) : string :=
  trim (stripLeadingDoi (reflected e "content")).

Definition specMetaDoi (e : Element) : option string :=
  if qualifying e && startsWith "10." (specCandidateOf e)
  then Some (specCandidateOf e) else None.

(** [pat] occurs in [s] right after [pre], and nowhere earlier. *)
Definition FirstAt (s pat pre post : string) : Prop :=
  s = pre +:+ pat +:+ post /\
  forall pre' post', s = pre' +:+ pat +:+ post' -> (String.length pre <= String.length pre')%nat.

Definition firstChar (s : string) : option ascii :=
  match s with
  | EmptyString => None
  | String c _ => Some c
  end.

Fixpoint lastChar (s : string) : option ascii :=
  match s with
  | EmptyString => None
  | String c EmptyString => Some c
  | String _ s' => lastChar s'
  end.

(** No whitespace at either end. *)
Definition Trimmed (s : string) : Prop :=
  (forall c, firstChar s = Some c -> isSpace c = false) /\
  (forall c, lastChar s = Some c -> isSpace c = false).

(** ** The strategies and their markers *)

Inductive Strategy : Type :=
| MetaTags | DataDoiAttributes | ScienceDirect | Ieee | Number | Psycnet | Pubmed | Title.

Definition finderOf (s : Strategy) : Finder :=
  match s with
  | MetaTags => findDoiFromMetaTags
  | DataDoiAttributes => findDoiFromDataDoiAttributes
  | ScienceDirect => findDoiFromScienceDirect
  | Ieee => findDoiFromIeee
  | Number => findDoiFromNumber
  | Psycnet => findDoiFromPsycnet
  | Pubmed => findDoiFromPubmed
  | Title => findDoiFromTitle
  end.

(** The strategies in the order of [doiFinderFunctions]. *)
Definition strategies : list Strategy :=
  [ MetaTags; DataDoiAttributes; ScienceDirect; Ieee; Number; Psycnet; Pubmed; Title ].

(** The page has none of the markers a strategy looks for: no meta element
    with an allow-listed name; no [data-doi] attribute; no match of the
    strategy's markup pattern and, for ScienceDirect, no anchor of class
    [doi]; no anchor with [ref='aid_type=doi']; no DOI-shaped text in the
    title. *)
Definition NoMarkersOf (s : Strategy) (p : Page) : Prop :=
  match s with
  | MetaTags => forall e, e ∈ document p -> namedForDoi e = false
  | DataDoiAttributes =>
      forall e, e ∈ document p -> getAttribute (attributes e) "data-doi" = None
  | ScienceDirect =>
      ~ Occurs reScienceDirectVar (docAsStr p) /\
      forall e, e ∈ document p -> selects (quirksMode p) SelADoi e = false
  | Ieee => ~ Occurs reIeee (docAsStr p)
  | Number => ~ Occurs reNumber (docAsStr p)
  | Psycnet => ~ Occurs rePsycnet (docAsStr p)
  | Pubmed => forall e, e ∈ document p -> selects (quirksMode p) SelARefDoi e = false
  | Title => ~ HasDoiShape (docTitle p)
  end.

(** ** Capture groups and match positions *)

(** The pattern has a capture group. *)
Fixpoint hasGroup (r : Regex) : bool :=
  match r with
  | Empty | Chr _ | Quant _ _ _ _ => false
  | Seq r1 r2 => hasGroup r1 || hasGroup r2
  | Group _ => true
  end.

(** The number of capture groups of the pattern. *)
Fixpoint groupCount (r : Regex) : nat :=
  match r with
  | Empty | Chr _ | Quant _ _ _ _ => 0
  | Seq r1 r2 => groupCount r1 + groupCount r2
  | Group r' => S (groupCount r')
  end.

(** [s] is empty or begins with a character that [f] rejects. *)
Definition stopsAt (f : ascii -> bool) (s : string) : Prop :=
  forall c, firstChar s = Some c -> f c = false.

(** The pattern matches [w] in [s] right after [pre], and matches nothing
    that starts earlier in [s]. *)
Definition LeftmostAt (re : RegExp) (s pre w post : string) : Prop :=
  s = pre +:+ w +:+ post /\
  forall pre' w' post',
    s = pre' +:+ w' +:+ post' -> Lang re w' -> (String.length pre <= String.length pre')%nat.

(** The host argument lets [runRegexOnDoc] search: it is unset, or the
    page's host. *)
Definition hostPermits (p : Page) (host : JsVal) : Prop :=
  truthy host = false \/ host = Str (myHost p).

(** ** Runs of popupDoi and main *)

(** The popup [popupDoi] appends for [doi]. *)
Definition thePopup (doi : JsVal) : Popup := mkPopup "div" "no" "scite-popup-app" doi.

(** The state after calling [popupDoi] with each of [dois] in turn. *)
Definition popupCalls (ui : Ui) (dois : list JsVal) : Ui :=
  fold_left (fun u doi => fst (popupDoi u doi)) dois ui.

(** The state after running [main] on each of [ps] in turn. *)
Definition mainRuns (ui : Ui) (ps : list Page) : Ui := fold_left main ps ui.

(** ** Sample pages *)

(** A page with a DOI in a meta element and another one in its title. *)
Definition pageMetaAndTitle : Page :=
  mkPage "" "A study 10.5555/from.title" "example.org"
    [ mkElement "meta" [("name", "citation_doi"); ("content", "10.1234/from.meta")] "" ] false.

(** A page whose only marker is a DOI in its title. *)
Definition pageTitleOnly : Page :=
  mkPage "<p>text</p>" "A study 10.5555/from.title" "example.org"
    [ mkElement "p" [] "text" ] false.

(** A Pubmed page whose DOI anchor is empty, with a DOI in its title. *)
Definition pagePubmedEmptyAnchor : Page :=
  mkPage "<a ref='aid_type=doi'></a>" "A study 10.5555/from.title" "www.ncbi.nlm.nih.gov"
    [ mkElement "a" [("ref", "aid_type=doi")] "" ] false.

(** A page of an unrelated host that carries the markers of all five
    host-specific finders. *)
Definition pageForeignHost : Page :=
  mkPage
    ("<script>SDM.doi = '10.1016/j.foo.2016.01.001'; x = {'doi':'10.1109/5.771073'}</script>"
     +:+ "<p>Document Object Identifier (DOI): 10.3386/w23298</p>"
     +:+ "<a href='/doi/10.1037/0022-3514.79.5.748'>full text</a>")
    "Untitled" "example.org"
    [ mkElement "a" [("class", "doi")] "https://doi.org/10.1016/j.foo.2016.01.001";
      mkElement "a" [("ref", "aid_type=doi")] "10.1000/182" ] false.

(** A Psycnet record page. *)
Definition pagePsycnet : Page :=
  mkPage "<a href='/doi/10.1037/0022-3514.79.5.748'>full text</a>"
    "APA PsycNet" "psycnet.apa.org"
    [ mkElement "a" [("href", "/doi/10.1037/0022-3514.79.5.748")] "full text" ] false.

(** Two accepted meta elements with different values. *)
Definition pageTwoMetas : Page :=
  mkPage "" "Untitled" "example.org"
    [ mkElement "meta" [("name", "citation_doi"); ("content", "10.1000/first")] "";
      mkElement "link" [("rel", "stylesheet")] "";
      mkElement "meta" [("name", "DC.Identifier"); ("content", "doi:10.1000/second")] "";
      mkElement "meta" [("name", "viewport"); ("content", "10.1000/third")] "" ] false.

(** Three elements with one and the same [data-doi] value. *)
Definition pageThreeDataDois : Page :=
  mkPage "" "Untitled" "example.org"
    [ mkElement "div" [("data-doi", "10.1000/182")] "";
      mkElement "span" [("class", "badge"); ("data-doi", "10.1000/182")] "";
      mkElement "p" [] "text";
      mkElement "div" [("data-doi", "10.1000/182")] "" ] false.

(** A meta element with an allow-listed name, a publisher's scheme and a
    content that looks like a DOI, after an accepted one. *)
Definition pageSchemeMeta : Page :=
  mkPage "" "Untitled" "journals.sagepub.com"
    [ mkElement "meta" [("name", "dc.identifier"); ("scheme", "doi");
                        ("content", "10.1177/00034894991080S423")] "";
      mkElement "meta" [("name", "dc.identifier"); ("scheme", "publisher-id");
                        ("content", "10.1177_00034894991080S423")] "" ] false.

(** A meta element that declares an empty scheme. *)
Definition metaEmptyScheme : Element :=
  mkElement "meta" [("name", "citation_doi"); ("scheme", ""); ("content", "10.1000/182")] "".

Definition pageEmptyScheme : Page := mkPage "" "Untitled" "example.org" [metaEmptyScheme] false.

(** A qualifying meta element with [doi:] inside its content. *)
Definition metaInnerDoi : Element :=
  mkElement "meta" [("name", "citation_doi"); ("content", "10.1234/doi:abc")] "".

Definition pageInnerDoi : Page := mkPage "" "Untitled" "example.org" [metaInnerDoi] false.

(** A qualifying meta element whose content carries the [doi:] prefix. *)
Definition metaPrefixedDoi : Element :=
  mkElement "meta" [("name", "citation_doi"); ("content", "doi:10.1234/abc")] "".

Definition pagePrefixedDoi : Page := mkPage "" "Untitled" "example.org" [metaPrefixedDoi] false.

(** The title of the specification's example. *)
Definition pageJamaTitle : Page :=
  mkPage "" "Study of X (doi: 10.1001/jama.2020.1234)" "example.org" [] false.

Definition pageNoMarkers : Page :=
  mkPage "<head><meta name='viewport' content='width=device-width'></head><p>Hello</p>"
    "Hello, world" "www.sciencedirect.com"
    [ mkElement "meta" [("name", "viewport"); ("content", "width=device-width")] "";
      mkElement "p" [] "Hello" ] false.

Definition notApostrophe (c : ascii) : bool := negb (Ascii.eqb "'" c).

Definition notLineTerminator (c : ascii) : bool := negb (isLineTerminator c).

(** An IEEE Xplore document page. *)
Definition pageIeee : Page :=
  mkPage "<script>var meta = {'title':'A paper','doi':'10.1109/5.771073','pages':'9'};</script>"
    "A paper - IEEE Xplore" "ieeexplore.ieee.org" [] false.

(** /doi/, a pattern without a capture group. *)
Definition reNoGroup : RegExp := mkRegExp (lit "doi") false false.

(** The label the NBER pattern starts with. *)
Definition nberLabel : string := "Document Object Identifier (DOI): ".

(** An NBER working-paper page with two paragraphs on one line. *)
Definition pageNber : Page :=
  mkPage "<p>Document Object Identifier (DOI): 10.3386/w23298</p><p>Published: April 2017</p>"
    "NBER working paper" "www.nber.org" [] false.

(** [w] is an assignment [SDM.doi = 'v'] as the ScienceDirect pattern reads
    it: [SDM], any character but a line terminator, [doi], optional
    whitespace around [=], and a non-empty value without apostrophe between
    apostrophes. *)
Definition sdAssignment (w v : string) : Prop :=
  exists (c : ascii) (ws1 ws2 : string),
    w = "SDM" +:+ String c "doi" +:+ ws1 +:+ "=" +:+ ws2 +:+ "'" +:+ v +:+ "'" /\
    notLineTerminator c = true /\
    allChars isSpace ws1 = true /\ allChars isSpace ws2 = true /\
    v <> "" /\ allChars notApostrophe v = true.

(** The markup holds such an assignment. *)
Definition hasSdAssignment (s : string) : Prop :=
  exists pre w v post, s = pre +:+ w +:+ post /\ sdAssignment w v.

(** An old ScienceDirect page, with the script variable and a DOI link. *)
Definition pageScienceDirectOld : Page :=
  mkPage "<script>SDM.doi = '10.1016/j.joi.2009.03.006';</script>"
    "An article - ScienceDirect" "www.sciencedirect.com"
    [ mkElement "a" [("class", "doi"); ("href", "https://doi.org/10.1016/other")]
        "https://doi.org/10.1016/other" ] false.

(** A new ScienceDirect page: two anchors of class [doi], the first
    without a link to doi.org. *)
Definition pageScienceDirectNew : Page :=
  mkPage "<a class='doi'>DOI</a><a class='doi'>https://doi.org/10.1016/j.x</a>"
    "An article - ScienceDirect" "www.sciencedirect.com"
    [ mkElement "a" [("class", "doi")] "DOI";
      mkElement "a" [("class", "doi")] "https://doi.org/10.1016/j.x" ] false.

(** [pageTwoMetas] with the name of its third element in lower case. *)
Definition pageTwoMetasLower : Page :=
  mkPage "" "Untitled" "example.org"
    [ mkElement "meta" [("name", "citation_doi"); ("content", "10.1000/first")] "";
      mkElement "link" [("rel", "stylesheet")] "";
      mkElement "meta" [("name", "dc.identifier"); ("content", "doi:10.1000/second")] "";
      mkElement "meta" [("name", "viewport"); ("content", "10.1000/third")] "" ] false.

(** One element with the [data-doi] value of [pageThreeDataDois]. *)
Definition pageOneDataDoi : Page :=
  mkPage "" "Untitled" "example.org"
    [ mkElement "article" [("data-doi", "10.1000/182")] "" ] false.

(** A ScienceDirect page in quirks mode whose first anchor carries the
    class in capitals. *)
Definition pageScienceDirectQuirks : Page :=
  mkPage "<a class='article DOI'>https://doi.org/10.1016/j.y</a>"
    "An article - ScienceDirect" "www.sciencedirect.com"
    [ mkElement "a" [("class", "article DOI")] "https://doi.org/10.1016/j.y";
      mkElement "a" [("class", "doi")] "https://doi.org/10.1016/j.x" ] true.

(** * Properties *)

(** ** Strings *)

Lemma sapp_nil_l (s : string) : "" +:+ s = s.
Proof. reflexivity. Qed.

Lemma sapp_cons (c : ascii) (s t : string) : String c s +:+ t = String c (s +:+ t).
Proof. reflexivity. Qed.

Lemma sapp_nil_r (s : string) : s +:+ "" = s.
Proof. induction s as [|c s IH]; [reflexivity | rewrite sapp_cons, IH; reflexivity]. Qed.

Lemma sapp_assoc (s t u : string) : (s +:+ t) +:+ u = s +:+ (t +:+ u).
Proof. induction s as [|c s IH]; [reflexivity | rewrite !sapp_cons, IH; reflexivity]. Qed.

Lemma slength_app (s t : string) :
  String.length (s +:+ t) = (String.length s + String.length t)%nat.
Proof. induction s as [|c s IH]; [reflexivity | rewrite sapp_cons; simpl; rewrite IH; reflexivity]. Qed.

Lemma substring_app (w rest : string) : substring 0 (String.length w) (w +:+ rest) = w.
Proof.
  induction w as [|c w IH].
  - destruct rest; reflexivity.
  - rewrite sapp_cons. simpl. rewrite IH. reflexivity.
Qed.

Lemma consumed_app (w rest : string) : consumed (w +:+ rest) rest = w.
Proof.
  unfold consumed. rewrite slength_app.
  replace (String.length w + String.length rest - String.length rest)%nat
    with (String.length w) by lia.
  apply substring_app.
Qed.

Section MatcherFacts.
Context {A : Type}.
Variable ic : bool.

Lemma repeatMatcher_sound (greedy : bool) (cs : CharSet) (s : string) :
  forall (lo : nat) (hi : option nat) (k : string -> option A) (a : A),
    repeatMatcher ic greedy lo hi cs s k = Some a ->
    exists w rest,
      s = w +:+ rest /\ allChars (charMatches ic cs) w = true /\
      (lo <= String.length w)%nat /\ within hi (String.length w) /\ k rest = Some a.
Proof.
  induction s as [|c s IH]; intros lo hi k a H.
  - exists "", "". simpl in H.
    assert (Hk : lo = O /\ k "" = Some a).
    { destruct greedy, lo; simpl in H; try discriminate; auto.
      destruct (k ""); [injection H as ->; auto | discriminate]. }
    destruct Hk as [-> Hk]. repeat split; auto. destruct hi; simpl; lia.
  - assert (Hcases :
      (lo = O /\ k (String c s) = Some a) \/
      (mayRepeat hi = true /\ charMatches ic cs c = true /\
       repeatMatcher ic greedy (pred lo) (decr hi) cs s k = Some a)).
    { simpl in H.
      destruct (mayRepeat hi && charMatches ic cs c) eqn:E.
      - apply andb_prop in E as [E1 E2].
        destruct greedy.
        + destruct (repeatMatcher ic true (pred lo) (decr hi) cs s k) eqn:R.
          * injection H as ->. right; auto.
          * destruct lo; [left; auto | discriminate].
        + destruct lo.
          * destruct (k (String c s)) eqn:K; [injection H as ->; left; auto | right; auto].
          * right; auto.
      - left. destruct greedy, lo; try discriminate; auto.
        destruct (k (String c s)); [injection H as ->; auto | discriminate]. }
    destruct Hcases as [[-> Hk] | (Hm & Hc & Hr)].
    + exists "", (String c s). repeat split; auto. destruct hi; simpl; lia.
    + apply IH in Hr as (w & rest & -> & Hall & Hlo & Hhi & Hk).
      exists (String c w), rest. rewrite sapp_cons. simpl. rewrite Hc, Hall.
      repeat split; auto; [lia |].
      destruct hi as [[|h]|]; simpl in *; try discriminate; auto; lia.
Qed.

Lemma repeatMatcher_complete (greedy : bool) (cs : CharSet) (w rest : string) :
  forall (lo : nat) (hi : option nat) (k : string -> option A),
    allChars (charMatches ic cs) w = true ->
    (lo <= String.length w)%nat -> within hi (String.length w) ->
    is_Some (k rest) ->
    is_Some (repeatMatcher ic greedy lo hi cs (w +:+ rest) k).
Proof.
  induction w as [|c w IH]; intros lo hi k Hall Hlo Hhi Hk.
  - rewrite sapp_nil_l. simpl in Hlo. assert (lo = O) as -> by lia.
    destruct Hk as [a Hk].
    destruct rest as [|d rest]; simpl; rewrite ?Hk.
    + destruct greedy; eauto.
    + destruct greedy; [| eauto].
      destruct (mayRepeat hi && charMatches ic cs d); [| eauto].
      destruct (repeatMatcher ic true 0 (decr hi) cs rest k); eauto.
  - rewrite sapp_cons. simpl in Hall, Hlo, Hhi. apply andb_prop in Hall as [Hc Hall].
    assert (Hm : mayRepeat hi = true).
    { destruct hi as [[|h]|]; simpl in *; auto; lia. }
    assert (Hrec : is_Some (repeatMatcher ic greedy (pred lo) (decr hi) cs (w +:+ rest) k)).
    { apply IH; auto; [lia |]. destruct hi as [h|]; simpl in *; auto; lia. }
    destruct Hrec as [a Hrec]. simpl. rewrite Hm, Hc. simpl. rewrite Hrec.
    destruct greedy; [eauto |].
    destruct lo; [| eauto]. destruct (k (String c (w +:+ rest))); eauto.
Qed.

Lemma matcher_sound (r : Regex) :
  forall (s : string) (cap : option string)
         (k : string -> option string -> option A) (a : A),
    matcher ic r s cap k = Some a ->
    exists w rest cap',
      s = w +:+ rest /\ Matches ic r w cap cap' /\ k rest cap' = Some a.
Proof.
  induction r as [|cs|r1 IH1 r2 IH2|greedy lo hi cs|r IH]; intros s cap k a H; simpl in H.
  - exists "", s, cap. simpl. auto.
  - destruct s as [|c s]; [discriminate |].
    destruct (charMatches ic cs c) eqn:E; [| discriminate].
    exists (String c ""), s, cap. simpl. eauto 6.
  - apply IH1 in H as (w1 & rest1 & cap1 & -> & M1 & H).
    apply IH2 in H as (w2 & rest2 & cap2 & -> & M2 & H).
    exists (w1 +:+ w2), rest2, cap2. rewrite sapp_assoc. simpl. eauto 10.
  - apply repeatMatcher_sound in H as (w & rest & -> & Hall & Hlo & Hhi & H).
    exists w, rest, cap. simpl. auto 6.
  - apply IH in H as (w & rest & cap' & -> & M & H).
    rewrite consumed_app in H.
    exists w, rest, (Some w). simpl. eauto 6.
Qed.

Lemma matcher_complete (r : Regex) :
  forall (w rest : string) (cap cap' : option string)
         (k : string -> option string -> option A),
    Matches ic r w cap cap' ->
    (forall c, is_Some (k rest c)) ->
    forall c, is_Some (matcher ic r (w +:+ rest) c k).
Proof.
  induction r as [|cs|r1 IH1 r2 IH2|greedy lo hi cs|r IH];
    intros w rest cap cap' k M Hk c0; simpl in M.
  - destruct M as [-> _]. simpl. auto.
  - destruct M as [(c & -> & Hc) _]. rewrite sapp_cons, sapp_nil_l. simpl. rewrite Hc. auto.
  - destruct M as (w1 & w2 & cap1 & -> & M1 & M2). rewrite sapp_assoc. simpl.
    apply (IH1 w1 (w2 +:+ rest) cap cap1); [exact M1 |].
    intros c. apply (IH2 w2 rest cap1 cap'); auto.
  - destruct M as (Hall & Hlo & Hhi & _). simpl.
    apply repeatMatcher_complete; auto.
  - destruct M as [(c & M) _]. simpl.
    apply (IH w rest cap c); auto.
Qed.
End MatcherFacts.

Lemma matchAt_sound (re : RegExp) (s : string) (m : MatchArray) :
  matchAt re s = Some m ->
  exists w rest cap,
    s = w +:+ rest /\ Matches (ignoreCase re) (pattern re) w None cap /\ m = matchArray w cap.
Proof.
  unfold matchAt. intros H.
  apply matcher_sound in H as (w & rest & cap & -> & M & H).
  rewrite consumed_app in H. injection H as <-. eauto 6.
Qed.

Lemma matchAt_complete (re : RegExp) (w rest : string) :
  Lang re w -> is_Some (matchAt re (w +:+ rest)).
Proof.
  intros [cap M]. unfold matchAt.
  eapply matcher_complete; [exact M |]. intros c. eauto.
Qed.

Lemma exec_sound (re : RegExp) (s : string) (m : MatchArray) :
  exec re s = Some m ->
  exists pre w post cap,
    s = pre +:+ w +:+ post /\
    Matches (ignoreCase re) (pattern re) w None cap /\ m = matchArray w cap.
Proof.
  induction s as [|c s IH]; simpl; intros H.
  - destruct (matchAt re "") eqn:E; [| discriminate]. injection H as ->.
    apply matchAt_sound in E as (w & rest & cap & Hs & M & ->).
    exists "", w, rest, cap. auto.
  - destruct (matchAt re (String c s)) eqn:E.
    + injection H as ->.
      apply matchAt_sound in E as (w & rest & cap & Hs & M & ->).
      exists "", w, rest, cap. auto.
    + apply IH in H as (pre & w & post & cap & -> & M & ->).
      exists (String c pre), w, post, cap. auto.
Qed.

Lemma exec_complete (re : RegExp) (s : string) : Occurs re s -> is_Some (exec re s).
Proof.
  intros (pre & w & post & -> & L).
  induction pre as [|c pre IH].
  - rewrite sapp_nil_l. pose proof (matchAt_complete re w post L) as [m Hm].
    destruct (w +:+ post) eqn:E; simpl; rewrite Hm; eauto.
  - rewrite sapp_cons. simpl. destruct (matchAt re _); eauto.
Qed.

Lemma exec_None_iff (re : RegExp) (s : string) : exec re s = None <-> ~ Occurs re s.
Proof.
  split.
  - intros H Ho. apply exec_complete in Ho as [m Hm]. congruence.
  - intros H. destruct (exec re s) as [m|] eqn:E; [| reflexivity].
    exfalso. apply H. apply exec_sound in E as (pre & w & post & cap & -> & M & _).
    exists pre, w, post. split; [reflexivity |]. exists cap. exact M.
Qed.

Lemma matchAllFrom_nil_iff (re : RegExp) (s : string) :
  matchAllFrom re s 0 = [] <-> ~ Occurs re s.
Proof.
  rewrite <- exec_None_iff.
  induction s as [|c s IH]; simpl.
  - destruct (matchAt re ""); split; intros; congruence.
  - destruct (matchAt re (String c s)); [split; intros; congruence | exact IH].
Qed.

(** The first text [s.match(re)] lists is the one [re.exec(s)] finds. *)
Lemma matchAllFrom_head (re : RegExp) (s : string) :
  head (matchAllFrom re s 0) = m ← exec re s; head m.
Proof.
  induction s as [|c s IH]; simpl.
  - destruct (matchAt re "") as [m|] eqn:E; [| reflexivity].
    apply matchAt_sound in E as (w & rest & cap & _ & _ & ->). reflexivity.
  - destruct (matchAt re (String c s)) as [m|] eqn:E; [| exact IH].
    apply matchAt_sound in E as (w & rest & cap & _ & _ & ->). reflexivity.
Qed.

(** ** The arbitration loop *)

Section Arbitration.
Variable p : Page.

Lemma tryFinders_first (pre post : list Finder) (f : Finder) :
  forall i : nat,
    Forall (fun g => NotFound (g p)) pre -> Found (f p) ->
    tryFinders (pre ++ f :: post) i p = (f p, seq i (S (length pre))).
Proof.
  induction pre as [|g pre IH]; intros i Hpre Hf; simpl.
  - unfold Found in Hf. rewrite Hf. reflexivity.
  - inversion Hpre as [|? ? Hg Hpre']; subst. unfold NotFound in Hg. rewrite Hg.
    rewrite (IH (S i) Hpre' Hf). reflexivity.
Qed.

Lemma tryFinders_none (fs : list Finder) :
  forall i : nat,
    Forall (fun g => NotFound (g p)) fs ->
    tryFinders fs i p = (Undefined, seq i (length fs)).
Proof.
  induction fs as [|g fs IH]; intros i Hfs; simpl; [reflexivity |].
  inversion Hfs as [|? ? Hg Hfs']; subst. unfold NotFound in Hg. rewrite Hg.
  rewrite (IH (S i) Hfs'). reflexivity.
Qed.

Lemma tryFinders_value_shift (fs : list Finder) :
  forall i j : nat, fst (tryFinders fs i p) = fst (tryFinders fs j p).
Proof.
  induction fs as [|g fs IH]; intros i j; simpl; [reflexivity |].
  destruct (truthy (g p)); [reflexivity |].
  specialize (IH (S i) (S j)).
  destruct (tryFinders fs (S i) p), (tryFinders fs (S j) p). exact IH.
Qed.

Lemma tryFinders_skip (pre post : list Finder) (f : Finder) :
  forall i : nat,
    NotFound (f p) ->
    fst (tryFinders (pre ++ f :: post) i p) = fst (tryFinders (pre ++ post) i p).
Proof.
  induction pre as [|g pre IH]; intros i Hf; simpl.
  - unfold NotFound in Hf. rewrite Hf.
    pose proof (tryFinders_value_shift post (S i) i) as E.
    destruct (tryFinders post (S i) p). exact E.
  - destruct (truthy (g p)); [reflexivity |].
    specialize (IH (S i) Hf).
    destruct (tryFinders (pre ++ f :: post) (S i) p), (tryFinders (pre ++ post) (S i) p).
    exact IH.
Qed.

Lemma tryFinders_value (fs : list Finder) :
  forall i : nat,
    fst (tryFinders fs i p) = Undefined \/
    exists f, f ∈ fs /\ Found (f p) /\ fst (tryFinders fs i p) = f p.
Proof.
  induction fs as [|g fs IH]; intros i; simpl; [left; reflexivity |].
  destruct (truthy (g p)) eqn:E.
  - right. exists g. split; [left | auto].
  - destruct (IH (S i)) as [H | (f & Hin & Hf & H)];
      destruct (tryFinders fs (S i) p); simpl in *.
    + left. exact H.
    + right. exists f. split; [right; exact Hin | auto].
Qed.

Lemma split_at_lookup (fs : list Finder) (n : nat) (f : Finder) :
  fs !! n = Some f -> fs = take n fs ++ f :: drop (S n) fs /\ length (take n fs) = n.
Proof.
  intros H. split.
  - symmetry. apply take_drop_middle. exact H.
  - apply length_take_le. apply lookup_lt_Some in H. lia.
Qed.
End Arbitration.

Lemma metaStep_plain (doi : JsVal) (e : Element) :
  plainResult doi -> plainResult (metaStep doi e).
Proof.
  unfold metaStep. intros H.
  repeat (match goal with |- context [if ?x then _ else _] => destruct x end);
    auto; discriminate.
Qed.

Lemma metaScan_plain (l : list Element) :
  forall doi : JsVal, plainResult doi -> plainResult (fold_left metaStep l doi).
Proof.
  induction l as [|e l IH]; intros doi H; simpl; [exact H |].
  apply IH, metaStep_plain, H.
Qed.

Lemma runRegexOnDoc_plain (p : Page) (re : RegExp) (host : JsVal) :
  plainResult (runRegexOnDoc p re host).
Proof.
  unfold plainResult, runRegexOnDoc.
  repeat (match goal with |- context [match ?x with _ => _ end] => destruct x end);
    discriminate.
Qed.

Lemma finders_plain (p : Page) (f : Finder) :
  f ∈ doiFinderFunctions -> plainResult (f p).
Proof.
  unfold doiFinderFunctions. intros Hin.
  repeat (apply elem_of_cons in Hin as [-> | Hin]); [..| inversion Hin].
  - unfold findDoiFromMetaTags.
    pose proof (metaScan_plain (querySelectorAll p SelMeta) Undefined) as H.
    destruct (negb (truthy _)); [discriminate | apply H; discriminate].
  - unfold plainResult, findDoiFromDataDoiAttributes.
    repeat (match goal with |- context [match ?x with _ => _ end] => destruct x end);
      discriminate.
  - unfold findDoiFromScienceDirect.
    destruct (indexOf (myHost p) "sciencedirect" <? 0); [discriminate |].
    destruct (truthy (runRegexOnDoc p reScienceDirectVar Undefined));
      [apply runRegexOnDoc_plain |].
    unfold plainResult.
    repeat (match goal with |- context [match ?x with _ => _ end] => destruct x end);
      discriminate.
  - apply runRegexOnDoc_plain.
  - apply runRegexOnDoc_plain.
  - apply runRegexOnDoc_plain.
  - unfold plainResult, findDoiFromPubmed.
    repeat (match goal with |- context [match ?x with _ => _ end] => destruct x end);
      discriminate.
  - unfold plainResult, findDoiFromTitle.
    repeat (match goal with |- context [match ?x with _ => _ end] => destruct x end);
      discriminate.
Qed.

Lemma found_plain_string (v : JsVal) :
  Found v -> plainResult v -> exists s, v = Str s /\ s <> "".
Proof.
  unfold Found, plainResult. destruct v as [| |[]|s]; simpl; try discriminate; try congruence.
  intros H _. exists s. split; [reflexivity |].
  intros ->. discriminate.
Qed.

(** ** String searches *)

Lemma startsWith_iff (pat s : string) :
  startsWith pat s = true <-> exists post, s = pat +:+ post.
Proof.
  revert s. induction pat as [|a pat IH]; intros s; simpl.
  - split; [intros _; exists s; reflexivity | reflexivity].
  - destruct s as [|b s].
    + split; [discriminate | intros [post H]; discriminate].
    + rewrite andb_true_iff, Ascii.eqb_eq, IH. split.
      * intros [-> [post ->]]. exists post. reflexivity.
      * intros [post H]. rewrite sapp_cons in H. injection H as -> ->. eauto.
Qed.

Lemma Contains_nil (pat : string) : Contains "" pat <-> startsWith pat "" = true.
Proof.
  rewrite startsWith_iff. split.
  - intros (pre & post & H). destruct pre; [| discriminate]. eauto.
  - intros [post H]. exists "", post. exact H.
Qed.

Lemma Contains_cons (c : ascii) (s pat : string) :
  Contains (String c s) pat <-> startsWith pat (String c s) = true \/ Contains s pat.
Proof.
  rewrite startsWith_iff. split.
  - intros (pre & post & H). destruct pre as [|d pre].
    + left. eauto.
    + right. rewrite sapp_cons in H. injection H as -> ->. exists pre, post. reflexivity.
  - intros [[post H] | (pre & post & ->)].
    + exists "", post. exact H.
    + exists (String c pre), post. reflexivity.
Qed.

Lemma indexOfFrom_spec (pat s : string) :
  forall i : Z,
    (Contains s pat -> i <= indexOfFrom pat s i) /\
    (~ Contains s pat -> indexOfFrom pat s i = -1).
Proof.
  induction s as [|c s IH]; intros i; simpl.
  - rewrite Contains_nil. destruct (startsWith pat ""); split; intros; try lia; congruence.
  - rewrite Contains_cons. destruct (startsWith pat (String c s)) eqn:E.
    + split; intros; [lia | tauto].
    + destruct (IH (i + 1)) as [H1 H2]. split.
      * intros [? | H]; [discriminate | specialize (H1 H); lia].
      * intros H. apply H2. tauto.
Qed.

Lemma indexOfFrom_range (pat s : string) :
  forall i : Z, indexOfFrom pat s i = -1 \/ i <= indexOfFrom pat s i.
Proof.
  induction s as [|c s IH]; intros i; simpl.
  - destruct (startsWith pat ""); [right; lia | left; reflexivity].
  - destruct (startsWith pat (String c s)); [right; lia |].
    destruct (IH (i + 1)); [left; assumption | right; lia].
Qed.

Lemma indexOf_neg_iff (s pat : string) : indexOf s pat < 0 <-> ~ Contains s pat.
Proof.
  unfold indexOf. destruct (indexOfFrom_spec pat s 0) as [H1 H2]. split.
  - intros H Hc. specialize (H1 Hc). lia.
  - intros H. rewrite (H2 H). lia.
Qed.

Lemma indexOf_zero (s pat : string) : (indexOf s pat =? 0) = startsWith pat s.
Proof.
  unfold indexOf. destruct s as [|c s]; simpl.
  - destruct (startsWith pat ""); reflexivity.
  - destruct (startsWith pat (String c s)); [reflexivity |].
    apply Z.eqb_neq.
    destruct (indexOfFrom_range pat s (0 + 1)); lia.
Qed.

Lemma arrayIndexOfFrom_spec (x : string) (l : list string) :
  forall i : Z,
    (x ∈ l -> i <= arrayIndexOfFrom x l i) /\ (x ∉ l -> arrayIndexOfFrom x l i = -1).
Proof.
  induction l as [|y l IH]; intros i; simpl.
  - split; [intros H; inversion H | reflexivity].
  - destruct (String.eqb_spec y x) as [-> | Hne].
    + split; [lia | intros H; exfalso; apply H; left].
    + destruct (IH (i + 1)) as [H1 H2]. split.
      * intros H. apply elem_of_cons in H as [-> | H]; [congruence | specialize (H1 H); lia].
      * intros H. apply H2. intros Hin. apply H. right. exact Hin.
Qed.

Lemma arrayIndexOf_neg (l : list string) (x : string) :
  (arrayIndexOf l x <? 0) = negb (bool_decide (x ∈ l)).
Proof.
  unfold arrayIndexOf. destruct (arrayIndexOfFrom_spec x l 0) as [H1 H2].
  destruct (decide (x ∈ l)) as [Hin | Hin].
  - rewrite (bool_decide_eq_true_2 _ Hin). specialize (H1 Hin). simpl. apply Z.ltb_ge. lia.
  - rewrite (bool_decide_eq_false_2 _ Hin). rewrite (H2 Hin). reflexivity.
Qed.

(** ** replace and trim *)

Lemma dropChars_app (a b : string) : dropChars (String.length a) (a +:+ b) = b.
Proof. induction a as [|c a IH]; [reflexivity | exact IH]. Qed.

Lemma replace_unfold (pat rep s : string) :
  replace pat rep s
  = if startsWith pat s then rep +:+ dropChars (String.length pat) s
    else match s with
         | EmptyString => EmptyString
         | String c s' => String c (replace pat rep s')
         end.
Proof. destruct s; reflexivity. Qed.

Lemma replace_FirstAt (pat rep s pre post : string) :
  FirstAt s pat pre post -> replace pat rep s = pre +:+ rep +:+ post.
Proof.
  revert s. induction pre as [|c pre IH]; intros s [-> Hfirst].
  - rewrite sapp_nil_l.
    assert (Hs : startsWith pat (pat +:+ post) = true) by (apply startsWith_iff; eauto).
    rewrite replace_unfold, Hs, dropChars_app. reflexivity.
  - rewrite !sapp_cons. simpl.
    destruct (startsWith pat (String c (pre +:+ pat +:+ post))) eqn:Hs.
    + apply startsWith_iff in Hs as [post' Hs].
      specialize (Hfirst "" post'). rewrite sapp_cons, sapp_nil_l in Hfirst.
      specialize (Hfirst Hs). simpl in Hfirst. lia.
    + f_equal. apply IH. split; [reflexivity |].
      intros pre' post' H.
      specialize (Hfirst (String c pre') post'). rewrite !sapp_cons, H in Hfirst.
      specialize (Hfirst eq_refl). simpl in Hfirst. lia.
Qed.

Lemma replace_absent (pat rep s : string) :
  ~ Contains s pat -> replace pat rep s = s.
Proof.
  induction s as [|c s IH]; intros H; simpl.
  - destruct (startsWith pat "") eqn:E; [| reflexivity].
    exfalso. apply H, Contains_nil, E.
  - destruct (startsWith pat (String c s)) eqn:E.
    + exfalso. apply H, Contains_cons. left. exact E.
    + f_equal. apply IH. intros Hc. apply H, Contains_cons. right. exact Hc.
Qed.

Lemma replace_prefix (pat rep rest : string) :
  replace pat rep (pat +:+ rest) = rep +:+ rest.
Proof.
  apply (replace_FirstAt pat rep (pat +:+ rest) "" rest).
  split; [reflexivity |]. intros. simpl. lia.
Qed.

Lemma trimStart_spaces (ws s : string) :
  allChars isSpace ws = true ->
  (forall c, firstChar s = Some c -> isSpace c = false) ->
  trimStart (ws +:+ s) = s.
Proof.
  intros Hws Hs. induction ws as [|c ws IH].
  - rewrite sapp_nil_l. destruct s as [|d s]; [reflexivity |].
    simpl. rewrite (Hs d eq_refl). reflexivity.
  - simpl in Hws. apply andb_prop in Hws as [Hc Hws].
    rewrite sapp_cons. simpl. rewrite Hc. auto.
Qed.

Lemma trimEnd_spaces (ws : string) : allChars isSpace ws = true -> trimEnd ws = "".
Proof.
  induction ws as [|c ws IH]; [reflexivity |]. simpl.
  intros H. apply andb_prop in H as [Hc Hws]. rewrite (IH Hws), Hc. reflexivity.
Qed.

Lemma trimEnd_spec (s ws : string) :
  allChars isSpace ws = true ->
  (forall c, lastChar s = Some c -> isSpace c = false) ->
  trimEnd (s +:+ ws) = s.
Proof.
  intros Hws. induction s as [|c s IH]; intros Hs.
  - rewrite sapp_nil_l. apply trimEnd_spaces, Hws.
  - rewrite sapp_cons. cbn [trimEnd]. destruct s as [|d s].
    + rewrite sapp_nil_l, (trimEnd_spaces ws Hws), (Hs c eq_refl). reflexivity.
    + rewrite IH by (intros x Hx; apply Hs; exact Hx). reflexivity.
Qed.

(** [trim] removes the whitespace that surrounds a text without whitespace
    at its ends. *)
Lemma trim_spec (ws1 s ws2 : string) :
  allChars isSpace ws1 = true -> allChars isSpace ws2 = true -> Trimmed s ->
  trim (ws1 +:+ s +:+ ws2) = s.
Proof.
  intros H1 H2 [Hfirst Hlast]. unfold trim. destruct s as [|c s].
  - rewrite sapp_nil_l.
    assert (Hall : allChars isSpace (ws1 +:+ ws2) = true).
    { clear -H1 H2. induction ws1 as [|c ws1 IH]; [exact H2 |].
      simpl in H1. apply andb_prop in H1 as [Hc H1]. rewrite sapp_cons. simpl.
      rewrite Hc. auto. }
    rewrite <- (sapp_nil_r (ws1 +:+ ws2)), trimStart_spaces;
      [reflexivity | exact Hall | discriminate].
  - rewrite trimStart_spaces; [apply trimEnd_spec; auto | exact H1 |].
    intros x Hx. apply Hfirst. rewrite sapp_cons in Hx. exact Hx.
Qed.

(** ** The meta-tag scan *)

Lemma startsWith_nonempty (pat s : string) :
  pat <> "" -> startsWith pat s = true -> s <> "".
Proof. intros Hp H ->. destruct pat; [congruence | discriminate]. Qed.

Lemma metaDoi_Some (e : Element) (v : string) :
  metaDoi e = Some v ->
  qualifying e = true /\ v = candidateOf e /\ startsWith "10." v = true.
Proof.
  unfold metaDoi. destruct (qualifying e) eqn:Q; cbn [andb]; [| discriminate].
  destruct (startsWith "10." (candidateOf e)) eqn:Hs; [| discriminate].
  intros H. injection H as <-. auto.
Qed.

Lemma metaDoi_meta (q : bool) (e : Element) :
  selects q SelMeta e = false -> metaDoi e = None.
Proof.
  unfold metaDoi, qualifying, namedForDoi. simpl. intros ->. reflexivity.
Qed.

(** One call of the callback keeps [doi] unless the element is accepted. *)
Lemma metaStep_metaDoi (q : bool) (doi : JsVal) (e : Element) :
  selects q SelMeta e = true ->
  metaStep doi e = match metaDoi e with Some v => Str v | None => doi end.
Proof.
  intros Htag. change (String.eqb (tagName e) "meta" = true) in Htag.
  unfold metaStep, metaDoi, qualifying, namedForDoi, schemeAllows.
  rewrite Htag, arrayIndexOf_neg, indexOf_zero. fold (candidateOf e).
  generalize (startsWith "10." (candidateOf e)) as st.
  generalize (candidateOf e) as cand. intros cand st.
  cbn [truthy strictEq andb].
  destruct (String.eqb_spec (reflected e "name") "") as [Hn | Hn]; cbn [negb].
  - rewrite Hn. reflexivity.
  - destruct (bool_decide (toLowerCase (reflected e "name") ∈ doiMetaNames));
      cbn [negb andb]; [| reflexivity].
    destruct (String.eqb_spec (reflected e "scheme") "") as [Hs | Hs]; cbn [negb andb].
    + rewrite bool_decide_eq_true_2 by auto. destruct st; reflexivity.
    + destruct (String.eqb_spec (reflected e "scheme") "doi") as [Hd | Hd]; cbn [negb andb].
      * rewrite bool_decide_eq_true_2 by auto. destruct st; reflexivity.
      * rewrite bool_decide_eq_false_2 by tauto. reflexivity.
Qed.

Lemma metaScan_last (q : bool) (l : list Element) :
  forall doi : JsVal,
    fold_left metaStep (List.filter (selects q SelMeta) l) doi
    = match last (acceptedDois l) with Some v => Str v | None => doi end.
Proof.
  unfold acceptedDois.
  induction l as [|e l IH]; intros doi; [reflexivity |].
  cbn [List.filter omap list_omap].
  destruct (selects q SelMeta e) eqn:Hsel.
  - cbn [fold_left]. rewrite IH, (metaStep_metaDoi q doi e Hsel).
    destruct (metaDoi e) as [v|]; [| reflexivity].
    rewrite last_cons. destruct (last (omap metaDoi l)); reflexivity.
  - rewrite IH, (metaDoi_meta q e Hsel). reflexivity.
Qed.

(** The scan returns the last accepted value, or [null] without one. *)
Lemma findDoiFromMetaTags_last (p : Page) :
  findDoiFromMetaTags p
  = match last (acceptedDois (document p)) with Some v => Str v | None => Null end.
Proof.
  unfold findDoiFromMetaTags, querySelectorAll. rewrite metaScan_last.
  destruct (last (acceptedDois (document p))) as [v|] eqn:E; [| reflexivity].
  apply last_Some_elem_of in E. unfold acceptedDois in E.
  apply list_elem_of_omap in E as (e & _ & He).
  apply metaDoi_Some in He as (_ & _ & Hv).
  apply startsWith_nonempty in Hv; [| discriminate].
  simpl. destruct (String.eqb_spec v ""); [contradiction | reflexivity].
Qed.

Lemma acceptedDois_app (l1 l2 : list Element) :
  acceptedDois (l1 ++ l2) = acceptedDois l1 ++ acceptedDois l2.
Proof. apply omap_app. Qed.

Lemma acceptedDois_cons (e : Element) (l : list Element) :
  acceptedDois (e :: l)
  = match metaDoi e with Some v => v :: acceptedDois l | None => acceptedDois l end.
Proof. reflexivity. Qed.

Lemma findDoiFromMetaTags_Found (p : Page) (v : string) :
  findDoiFromMetaTags p = Str v -> Found (findDoiFromMetaTags p).
Proof.
  rewrite findDoiFromMetaTags_last.
  destruct (last (acceptedDois (document p))) as [x|] eqn:E; [| discriminate].
  intros _. apply last_Some_elem_of, list_elem_of_omap in E as (e & _ & He).
  apply metaDoi_Some in He as (_ & _ & Hx).
  apply startsWith_nonempty in Hx; [| discriminate].
  unfold Found. simpl. destruct (String.eqb_spec x ""); [contradiction | reflexivity].
Qed.

Lemma metaDoi_scheme (e : Element) (sch : string) :
  getAttribute (attributes e) "scheme" = Some sch -> sch <> "" -> sch <> "doi" ->
  metaDoi e = None.
Proof.
  intros Hs H1 H2. unfold metaDoi, qualifying, schemeAllows, reflected.
  rewrite Hs. cbn [from_option id].
  rewrite bool_decide_eq_false_2 by tauto.
  rewrite andb_false_r. reflexivity.
Qed.

Lemma qualifying_meta (q : bool) (e : Element) :
  qualifying e = true -> selects q SelMeta e = true.
Proof.
  unfold qualifying, namedForDoi. intros H.
  apply andb_prop in H as [H _]. apply andb_prop in H as [H _]. exact H.
Qed.

Lemma metaStep_qualifying (doi : JsVal) (e : Element) :
  qualifying e = true ->
  metaStep doi e = if startsWith "10." (candidateOf e) then Str (candidateOf e) else doi.
Proof.
  intros Hq. rewrite (metaStep_metaDoi false doi e (qualifying_meta false e Hq)).
  unfold metaDoi. rewrite Hq. cbn [andb].
  destruct (startsWith "10." (candidateOf e)); reflexivity.
Qed.

(** ** The data-attribute scan *)

Lemma dataDoiValues_dataDois (q : bool) (l : list Element) :
  map (fun node => reflected node "data-doi") (List.filter (selects q SelDataDoi) l)
  = dataDois l.
Proof.
  unfold dataDois. induction l as [|e l IH]; [reflexivity |].
  cbn [List.filter omap list_omap selects].
  destruct (getAttribute (attributes e) "data-doi") as [v|] eqn:E.
  - rewrite bool_decide_eq_true_2 by eauto. cbn [map]. unfold reflected at 1.
    rewrite E. cbn [default]. f_equal. exact IH.
  - rewrite bool_decide_eq_false_2 by (intros [? ?]; discriminate). exact IH.
Qed.

Lemma size_one_iff (vals : list string) :
  size (list_to_set vals : gset string) = 1%nat <-> exists v, OneDistinct vals v.
Proof.
  split.
  - intros H. destruct (size_1_elem_of _ H) as [v Hv]. exists v. split.
    + intros ->. change (size (∅ : gset string) = 1%nat) in H.
      rewrite size_empty in H. discriminate.
    + intros x Hx. assert (x ∈ (list_to_set vals : gset string)) as Hin
        by (apply elem_of_list_to_set; exact Hx).
      rewrite Hv in Hin. apply elem_of_singleton in Hin. exact Hin.
  - intros (v & Hne & Hall).
    assert (list_to_set vals = ({[ v ]} : gset string)) as ->; [| apply size_singleton].
    apply set_eq. intros x. rewrite elem_of_list_to_set, elem_of_singleton. split.
    + apply Hall.
    + intros ->. destruct vals as [|y vals]; [congruence |].
      rewrite (Hall y) by left. left.
Qed.

Lemma findDoiFromDataDoiAttributes_one (p : Page) (v : string) :
  OneDistinct (dataDois (document p)) v -> findDoiFromDataDoiAttributes p = Str v.
Proof.
  intros H. unfold findDoiFromDataDoiAttributes, querySelectorAll.
  rewrite dataDoiValues_dataDois.
  rewrite (proj2 (size_one_iff _)) by eauto. cbn [Nat.eqb].
  destruct H as [Hne Hall]. destruct (dataDois (document p)) as [|x vals]; [congruence |].
  cbn. rewrite (Hall x) by left. reflexivity.
Qed.

Lemma findDoiFromDataDoiAttributes_other (p : Page) :
  (~ exists v, OneDistinct (dataDois (document p)) v) ->
  findDoiFromDataDoiAttributes p = Null.
Proof.
  intros H. unfold findDoiFromDataDoiAttributes, querySelectorAll.
  rewrite dataDoiValues_dataDois.
  destruct (Nat.eqb_spec (size (list_to_set (dataDois (document p)) : gset string)) 1)
    as [E | E]; [| reflexivity].
  exfalso. apply H, size_one_iff, E.
Qed.

(** ** The title pattern *)

Lemma allChars_ext (f g : ascii -> bool) (s : string) :
  (forall c, f c = g c) -> allChars f s = allChars g s.
Proof. intros H. induction s as [|c s IH]; simpl; [reflexivity | rewrite H, IH; reflexivity]. Qed.

Ltac all_code_units c := destruct c as [[] [] [] [] [] [] [] []]; reflexivity.

Lemma ic_one (c : ascii) : charMatches true (cls [One "1"]) c = Ascii.eqb "1" c.
Proof. all_code_units c. Qed.

Lemma ic_zero (c : ascii) : charMatches true (cls [One "0"]) c = Ascii.eqb "0" c.
Proof. all_code_units c. Qed.

Lemma ic_slash (c : ascii) : charMatches true (cls [One "/"]) c = Ascii.eqb "/" c.
Proof. all_code_units c. Qed.

Lemma ic_digit (c : ascii) : charMatches true (cls [ClsDigit]) c = isDigit c.
Proof. all_code_units c. Qed.

Lemma ic_suffix (c : ascii) :
  charMatches true
    (cls [ One "-"; One "."; One "_"; One ";"; One "("; One ")"; One "/"; One ":";
           Range "A" "Z"; Range "0" "9" ]) c
  = isDoiSuffixChar c.
Proof. all_code_units c. Qed.

Lemma reTitle_Lang (w : string) : Lang reTitle w <-> DoiShaped w.
Proof.
  unfold Lang, DoiShaped.
  cbn [reTitle pattern ignoreCase seqs lit plus Matches].
  split.
  - intros (cap & (cap0 & M) & _).
    destruct M as (w1 & w2 & c1 & -> & M1 & M2).
    destruct M1 as (x1 & x2 & c2 & -> & [(a1 & -> & Ha1) _]
                    & (x3 & x4 & c3 & -> & [(a2 & -> & Ha2) _] & -> & _)).
    destruct M2 as (y1 & y2 & c4 & -> & [(d & -> & Hd) _]
                    & (z1 & z2 & c5 & -> & (Hds & Hlo & Hhi & _) & M3)).
    destruct M3 as (u1 & u2 & c6 & ->
                    & (v1 & v2 & c7 & -> & [(a3 & -> & Ha3) _] & -> & _)
                    & (s1 & s2 & c8 & -> & (Hsuf & Hl1 & _ & _) & -> & _)).
    rewrite ic_one in Ha1. rewrite ic_zero in Ha2. rewrite ic_slash in Ha3.
    apply Ascii.eqb_eq in Ha1 as <-, Ha2 as <-, Ha3 as <-.
    rewrite (allChars_ext _ _ _ ic_digit) in Hds.
    rewrite (allChars_ext _ _ _ ic_suffix) in Hsuf.
    exists d, z1, s1. rewrite !sapp_nil_r, !sapp_assoc, !sapp_cons, !sapp_nil_l.
    simpl in Hd, Hhi. apply negb_true_iff in Hd.
    repeat split; auto.
    intros ->. simpl in Hl1. lia.
  - intros (c & ds & suf & -> & Hc & Hds & [Hlo Hhi] & Hne & Hsuf).
    exists (Some ("10" +:+ String c ds +:+ "/" +:+ suf)). split; [| reflexivity].
    exists None.
    exists "10", (String c ds +:+ "/" +:+ suf), None. split; [reflexivity |]. split.
    { exists "1", "0", None. split; [reflexivity |]. split; [eauto |].
      exists "0", "", None. repeat split; eauto. }
    exists (String c ""), (ds +:+ "/" +:+ suf), None. split; [reflexivity |]. split.
    { split; [| reflexivity]. exists c. split; [reflexivity |]. simpl. rewrite Hc. reflexivity. }
    exists ds, ("/" +:+ suf), None. split; [reflexivity |]. split.
    { rewrite (allChars_ext _ _ _ ic_digit). simpl. auto. }
    exists "/", suf, None. split; [reflexivity |]. split.
    { exists "/", "", None. repeat split; eauto. }
    exists suf, "", None. split; [rewrite sapp_nil_r; reflexivity |]. split; [| auto].
    rewrite (allChars_ext _ _ _ ic_suffix). repeat split; auto.
    destruct suf; [congruence | simpl; lia].
Qed.

Lemma reTitle_Occurs (t : string) : Occurs reTitle t <-> HasDoiShape t.
Proof.
  unfold Occurs, HasDoiShape.
  split; intros (pre & w & post & -> & H); exists pre, w, post;
    (split; [reflexivity | apply reTitle_Lang; exact H]).
Qed.

Lemma findDoiFromTitle_Null_iff (p : Page) :
  findDoiFromTitle p = Null <-> ~ HasDoiShape (docTitle p).
Proof.
  rewrite <- reTitle_Occurs, <- matchAllFrom_nil_iff.
  unfold findDoiFromTitle, stringMatch. cbn [reTitle global].
  fold reTitle.
  destruct (matchAllFrom reTitle (docTitle p) 0) as [|m ms]; cbn.
  - split; reflexivity.
  - split; discriminate.
Qed.

Lemma findDoiFromTitle_found (p : Page) :
  HasDoiShape (docTitle p) ->
  exists d : string,
    findDoiFromTitle p = Str d /\ DoiShaped d /\ Contains (docTitle p) d.
Proof.
  intros H. apply reTitle_Occurs in H.
  pose proof (matchAllFrom_head reTitle (docTitle p)) as Hhead.
  destruct (exec_complete reTitle (docTitle p) H) as [m Hm].
  rewrite Hm in Hhead.
  apply exec_sound in Hm as (pre & w & post & cap & Ht & M & ->).
  cbn in Hhead. exists w. split; [| split].
  - unfold findDoiFromTitle, stringMatch. cbn [reTitle global]. fold reTitle.
    destruct (matchAllFrom reTitle (docTitle p) 0) as [|x ms]; [discriminate |].
    cbn in Hhead. injection Hhead as ->. reflexivity.
  - apply reTitle_Lang. exists cap. exact M.
  - exists pre, post. exact Ht.
Qed.

(** ** Host scopes *)

Lemma runRegexOnDoc_scoped (p : Page) (re : RegExp) (host : string) :
  host <> "" -> host <> myHost p -> runRegexOnDoc p re (Str host) = Bool false.
Proof.
  intros Hne Hdiff. unfold runRegexOnDoc. cbn [truthy strictEq].
  destruct (String.eqb_spec host "") as [|_]; [contradiction |].
  destruct (String.eqb_spec host (myHost p)) as [|_]; [contradiction |].
  reflexivity.
Qed.

(** ** The Psycnet pattern *)

Lemma Matches_lit (s : string) :
  forall (w : string) (cap cap' : option string),
    Matches false (lit s) w cap cap' <-> w = s /\ cap' = cap.
Proof.
  induction s as [|c s IH]; intros w cap cap'; cbn [lit Matches].
  - tauto.
  - split.
    + intros (w1 & w2 & cap1 & -> & [(x & -> & Hx) ->] & H2).
      apply IH in H2 as [-> ->]. cbn in Hx. rewrite orb_false_r in Hx.
      apply Ascii.eqb_eq in Hx as ->. auto.
    + intros [-> ->]. exists (String c ""), s, cap. split; [reflexivity |]. split.
      * split; [| reflexivity]. exists c. split; [reflexivity |].
        cbn. rewrite Ascii.eqb_refl. reflexivity.
      * apply IH. auto.
Qed.

(** What the Psycnet finder returns is the text that follows
    [href='/doi/10.] in the markup. *)
Lemma findDoiFromPsycnet_value (p : Page) (v : string) :
  findDoiFromPsycnet p = Str v ->
  Contains (docAsStr p) ("href='/doi/10." +:+ v) /\ v <> "".
Proof.
  unfold findDoiFromPsycnet, runRegexOnDoc.
  destruct (negb (truthy (Str "psycnet.apa.org")) || _); [| discriminate].
  destruct (exec rePsycnet (docAsStr p)) as [m|] eqn:E; [| discriminate].
  apply exec_sound in E as (pre & w & post & cap & Hs & M & ->).
  cbn [rePsycnet pattern ignoreCase seqs plus Matches] in M.
  destruct M as (w1 & w2 & cap1 & -> & M1
                 & (g & e & cap2 & -> & [(c0 & _ & Hlo & _) ->] & -> & ->)).
  apply Matches_lit in M1 as [-> ->].
  cbn. intros H. injection H as <-. split.
  - exists pre, post. rewrite Hs, sapp_nil_r. reflexivity.
  - intros ->. simpl in Hlo. lia.
Qed.

(** ** Pages without markers *)

Lemma filter_none {X : Type} (f : X -> bool) (l : list X) :
  (forall x, x ∈ l -> f x = false) -> List.filter f l = [].
Proof.
  induction l as [|x l IH]; intros H; [reflexivity |]. simpl.
  rewrite (H x) by left. apply IH. intros y Hy. apply H. right. exact Hy.
Qed.

Lemma runRegexOnDoc_no_match (p : Page) (re : RegExp) (host : JsVal) :
  ~ Occurs re (docAsStr p) -> runRegexOnDoc p re host = Bool false.
Proof.
  intros H. apply exec_None_iff in H. unfold runRegexOnDoc. rewrite H.
  destruct (negb (truthy host) || strictEq host (Str (myHost p))); reflexivity.
Qed.

Lemma acceptedDois_none (l : list Element) :
  (forall e, e ∈ l -> namedForDoi e = false) -> acceptedDois l = [].
Proof.
  induction l as [|e l IH]; intros H; [reflexivity |].
  rewrite acceptedDois_cons. unfold metaDoi, qualifying. rewrite (H e) by left.
  cbn [andb]. apply IH. intros x Hx. apply H. right. exact Hx.
Qed.

Lemma dataDois_none (l : list Element) :
  (forall e, e ∈ l -> getAttribute (attributes e) "data-doi" = None) -> dataDois l = [].
Proof.
  unfold dataDois. induction l as [|e l IH]; intros H; [reflexivity |].
  cbn [omap list_omap]. rewrite (H e) by left. apply IH. intros x Hx. apply H. right. exact Hx.
Qed.

Lemma no_markers_finder (s : Strategy) (p : Page) :
  NoMarkersOf s p -> NotFound (finderOf s p).
Proof.
  destruct s; cbn [NoMarkersOf finderOf]; intros H.
  - rewrite findDoiFromMetaTags_last, (acceptedDois_none _ H). reflexivity.
  - rewrite findDoiFromDataDoiAttributes_other; [reflexivity |].
    rewrite (dataDois_none _ H). intros (v & Hnil & _). congruence.
  - destruct H as [Hre Hanchor]. unfold findDoiFromScienceDirect.
    destruct (indexOf (myHost p) "sciencedirect" <? 0); [reflexivity |].
    rewrite (runRegexOnDoc_no_match p _ _ Hre). cbn [truthy].
    unfold querySelectorAll. rewrite (filter_none _ _ Hanchor). reflexivity.
  - unfold findDoiFromIeee. rewrite (runRegexOnDoc_no_match p _ _ H). reflexivity.
  - unfold findDoiFromNumber. rewrite (runRegexOnDoc_no_match p _ _ H). reflexivity.
  - unfold findDoiFromPsycnet. rewrite (runRegexOnDoc_no_match p _ _ H). reflexivity.
  - unfold findDoiFromPubmed.
    destruct (indexOf (myHost p) "www.ncbi.nlm.nih.gov" <? 0); [reflexivity |].
    unfold querySelectorAll. rewrite (filter_none _ _ H). reflexivity.
  - rewrite (proj2 (findDoiFromTitle_Null_iff p) H). reflexivity.
Qed.

Lemma finderOf_elem (s : Strategy) : finderOf s ∈ doiFinderFunctions.
Proof.
  apply (list_elem_of_fmap_2 finderOf strategies s).
  destruct s; unfold strategies; repeat first [left | right].
Qed.

(** * The claims *)

(** C1.  [findDoi] tries the eight finders in the declared order (meta tags,
    data attributes, ScienceDirect, IEEE, NBER, Psycnet, Pubmed, title): when
    the finder at position [n] is the first whose value is found, [findDoi]
    returns that value and has called exactly the finders at positions 0 to
    [n], none after it.  In particular, when the meta-tag finder and the
    title finder both yield a string, and the two differ, the result is the
    meta-tag finder's and no other finder was called. *)
Theorem findDoi_first_found (p : Page) :
  doiFinderFunctions =
    [ findDoiFromMetaTags; findDoiFromDataDoiAttributes; findDoiFromScienceDirect;
      findDoiFromIeee; findDoiFromNumber; findDoiFromPsycnet; findDoiFromPubmed;
      findDoiFromTitle ] /\
  (forall (n : nat) (f : Finder),
      doiFinderFunctions !! n = Some f ->
      Found (f p) ->
      (forall (m : nat) (g : Finder),
          (m < n)%nat -> doiFinderFunctions !! m = Some g -> NotFound (g p)) ->
      findDoi p = f p /\ findDoiCalls p = seq 0 (S n)) /\
  (forall v t : string,
      findDoiFromMetaTags p = Str v -> findDoiFromTitle p = Str t -> v <> t ->
      findDoi p = Str v /\ findDoiCalls p = [0%nat]).
Proof.
  split; [reflexivity |]. split.
  - intros n f Hn Hf Hbefore.
    destruct (split_at_lookup _ _ _ Hn) as [Hsplit Hlen].
    unfold findDoi, findDoiCalls. rewrite Hsplit.
    rewrite (tryFinders_first p (take n doiFinderFunctions)); [| | exact Hf].
    + rewrite Hlen. split; reflexivity.
    + apply Forall_forall. intros g Hg.
      apply list_elem_of_lookup in Hg as [m Hm].
      pose proof (lookup_lt_Some _ _ _ Hm) as Hlt.
      assert (Hmn : (m < n)%nat) by (rewrite <- Hlen; exact Hlt).
      rewrite lookup_take_lt in Hm by exact Hmn. exact (Hbefore m g Hmn Hm).
  - intros v t Hv _ _.
    pose proof (findDoiFromMetaTags_Found p v Hv) as Hf.
    unfold findDoi, findDoiCalls, doiFinderFunctions. cbn [tryFinders].
    unfold Found in Hf. rewrite Hf, Hv. split; reflexivity.
Qed.

Lemma findDoi_first_found_witness :
  (findDoi pageMetaAndTitle = Str "10.1234/from.meta" /\
   findDoiCalls pageMetaAndTitle = [0%nat]) /\
  (findDoi pageTitleOnly = findDoiFromTitle pageTitleOnly /\
   findDoiCalls pageTitleOnly = seq 0 8).
Proof.
  split.
  - apply (proj2 (proj2 (findDoi_first_found pageMetaAndTitle))
             "10.1234/from.meta" "10.5555/from.title").
    + vm_compute. reflexivity.
    + vm_compute. reflexivity.
    + discriminate.
  - apply (proj1 (proj2 (findDoi_first_found pageTitleOnly)) 7%nat findDoiFromTitle).
    + reflexivity.
    + vm_compute. reflexivity.
    + intros m g Hm Hg.
      do 7 (destruct m as [|m]; [injection Hg as <-; vm_compute; reflexivity |]).
      lia.
Defined.

(** C2.  On a Psycnet page whose markup holds the link
    [href='/doi/10.1037/0022-3514.79.5.748'], the Psycnet finder returns the
    text that follows [10.] up to the end of the line: the value lacks the
    [10.] prefix and runs on past the closing quote. *)
Theorem findDoiFromPsycnet_drops_prefix :
  findDoiFromPsycnet pagePsycnet = Str "1037/0022-3514.79.5.748'>full text</a>" /\
  startsWith "10." "1037/0022-3514.79.5.748'>full text</a>" = false.
Proof. split; vm_compute; reflexivity. Qed.

(** C3, as the claim words it, fails twice.  On its own example the match
    runs on through the closing parenthesis, which is in the suffix class of
    the pattern.  And the dot of the pattern is unescaped: the title
    [Annual Report 10-2020/21] holds no DOI-shaped text in the
    specification's sense ([10.] with a literal dot), yet the finder returns
    [10-2020/21]. *)
Lemma findDoiFromTitle_example_refuted :
  findDoiFromTitle pageJamaTitle <> Str "10.1001/jama.2020.1234" /\
  (~ HasSpecDoiShape (docTitle pageReportTitle) /\
   findDoiFromTitle pageReportTitle = Str "10-2020/21" /\
   findDoiFromTitle pageReportTitle <> Null).
Proof.
  split; [vm_compute; discriminate |]. split; [| split].
  - intros (pre & w & post & Ht & ds & suf & -> & _).
    assert (Hc : Contains (docTitle pageReportTitle) "10.").
    { exists pre, (ds +:+ "/" +:+ suf +:+ post). rewrite Ht, !sapp_assoc. reflexivity. }
    apply indexOf_neg_iff in Hc; [exact Hc |]. vm_compute. reflexivity.
  - vm_compute. reflexivity.
  - vm_compute. discriminate.
Qed.

(** C3, amended.  On the title [Study of X (doi: 10.1001/jama.2020.1234)]
    the title finder returns [10.1001/jama.2020.1234)], closing parenthesis
    included.  It returns [null] exactly on the titles without text of the
    pattern's shape ([DoiShaped]: [10], any one character but a line
    terminator, four to nine digits, a slash, suffix characters), and on any
    other title a piece of the title of that shape.  The specification's
    shape, with a literal dot after [10], is a case of the pattern's shape,
    not the whole of it: the title [Annual Report 10-2020/21] gives
    [10-2020/21]. *)
Theorem findDoiFromTitle_amended (p : Page) :
  (docTitle p = "Study of X (doi: 10.1001/jama.2020.1234)" ->
      findDoiFromTitle p = Str "10.1001/jama.2020.1234)") /\
  (~ HasDoiShape (docTitle p) -> findDoiFromTitle p = Null) /\
  (HasDoiShape (docTitle p) ->
      exists d : string,
        findDoiFromTitle p = Str d /\ DoiShaped d /\ Contains (docTitle p) d) /\
  (HasSpecDoiShape (docTitle p) -> HasDoiShape (docTitle p)) /\
  (docTitle p = "Annual Report 10-2020/21" ->
      ~ HasSpecDoiShape (docTitle p) /\ findDoiFromTitle p = Str "10-2020/21").
Proof.
  split; [| split; [| split; [| split]]].
  - intros H. unfold findDoiFromTitle. rewrite H. vm_compute. reflexivity.
  - apply findDoiFromTitle_Null_iff.
  - apply findDoiFromTitle_found.
  - intros (pre & w & post & Ht & ds & suf & -> & Hds & Hlen & Hne & Hsuf).
    exists pre, ("10." +:+ ds +:+ "/" +:+ suf), post. split; [exact Ht |].
    exists "."%char, ds, suf. repeat split; auto; lia.
  - intros H. split.
    + rewrite H. intros (pre & w & post & Ht & ds & suf & -> & _).
      assert (Hc : Contains "Annual Report 10-2020/21" "10.").
      { exists pre, (ds +:+ "/" +:+ suf +:+ post). rewrite Ht, !sapp_assoc. reflexivity. }
      apply indexOf_neg_iff in Hc; [exact Hc |]. vm_compute. reflexivity.
    + unfold findDoiFromTitle. rewrite H. vm_compute. reflexivity.
Qed.

Lemma findDoiFromTitle_amended_witness :
  findDoiFromTitle pageJamaTitle = Str "10.1001/jama.2020.1234)" /\
  findDoiFromTitle pageNoMarkers = Null /\
  findDoiFromTitle pageReportTitle = Str "10-2020/21".
Proof.
  split; [| split].
  - apply (proj1 (findDoiFromTitle_amended pageJamaTitle)). reflexivity.
  - apply (proj1 (proj2 (findDoiFromTitle_amended pageNoMarkers))).
    rewrite <- reTitle_Occurs, <- matchAllFrom_nil_iff. vm_compute. reflexivity.
  - apply (proj2 (proj2 (proj2 (proj2 (findDoiFromTitle_amended pageReportTitle))))).
    reflexivity.
Defined.

(** C4.  A host-scoped finder on a page of another host yields a value that
    is not found, whatever the markup and the elements of the page:
    [runRegexOnDoc] returns [false], for every pattern and every text, when
    it is given a host (a value that passes [!host]) other than the page's;
    the IEEE, NBER and Psycnet finders do so unless the host is theirs, and
    the ScienceDirect and Pubmed finders return [null] unless the host
    contains theirs. *)
Theorem host_scoped_not_found (p : Page) :
  (forall (re : RegExp) (host : JsVal),
      truthy host = true -> host <> Str (myHost p) ->
      runRegexOnDoc p re host = Bool false) /\
  (~ Contains (myHost p) "sciencedirect" -> NotFound (findDoiFromScienceDirect p)) /\
  (myHost p <> "ieeexplore.ieee.org" -> NotFound (findDoiFromIeee p)) /\
  (myHost p <> "www.nber.org" -> NotFound (findDoiFromNumber p)) /\
  (myHost p <> "psycnet.apa.org" -> NotFound (findDoiFromPsycnet p)) /\
  (~ Contains (myHost p) "www.ncbi.nlm.nih.gov" -> NotFound (findDoiFromPubmed p)).
Proof.
  assert (Hscoped : forall re host, host <> "" -> myHost p <> host ->
            NotFound (runRegexOnDoc p re (Str host))).
  { intros re host H1 H2. rewrite runRegexOnDoc_scoped by congruence. reflexivity. }
  split; [| repeat split].
  - intros re host Hset Hdiff. unfold runRegexOnDoc. rewrite Hset. cbn [negb orb].
    destruct host as [| | b | h]; cbn [strictEq]; try reflexivity.
    destruct (String.eqb_spec h (myHost p)) as [-> | _]; [congruence | reflexivity].
  - intros H. apply indexOf_neg_iff, Z.ltb_lt in H.
    unfold findDoiFromScienceDirect. rewrite H. reflexivity.
  - intros H. apply Hscoped; [discriminate | exact H].
  - intros H. apply Hscoped; [discriminate | exact H].
  - intros H. apply Hscoped; [discriminate | exact H].
  - intros H. apply indexOf_neg_iff, Z.ltb_lt in H.
    unfold findDoiFromPubmed. rewrite H. reflexivity.
Qed.

Lemma host_scoped_not_found_witness :
  (is_Some (exec reScienceDirectVar (docAsStr pageForeignHost)) /\
   is_Some (exec reIeee (docAsStr pageForeignHost)) /\
   is_Some (exec reNumber (docAsStr pageForeignHost)) /\
   is_Some (exec rePsycnet (docAsStr pageForeignHost)) /\
   querySelectorAll pageForeignHost SelADoi <> [] /\
   querySelectorAll pageForeignHost SelARefDoi <> []) /\
  runRegexOnDoc pageForeignHost reIeee (Str "ieeexplore.ieee.org") = Bool false /\
  NotFound (findDoiFromScienceDirect pageForeignHost) /\
  NotFound (findDoiFromIeee pageForeignHost) /\
  NotFound (findDoiFromNumber pageForeignHost) /\
  NotFound (findDoiFromPsycnet pageForeignHost) /\
  NotFound (findDoiFromPubmed pageForeignHost).
Proof.
  destruct (host_scoped_not_found pageForeignHost) as (Hre & Hsd & Hieee & Hnber & Hpsy & Hpm).
  split; [| split; [| split; [| split; [| split; [| split]]]]].
  - vm_compute. repeat split; eauto; discriminate.
  - apply Hre; [reflexivity | discriminate].
  - apply Hsd. apply indexOf_neg_iff. vm_compute. reflexivity.
  - apply Hieee. discriminate.
  - apply Hnber. discriminate.
  - apply Hpsy. discriminate.
  - apply Hpm. apply indexOf_neg_iff. vm_compute. reflexivity.
Defined.

(** C5.  The meta-tag scan is last-wins: when two meta elements of the page
    are accepted with different values and no element after the second one
    is accepted, the scan returns the second element's value and not the
    first's. *)
Theorem findDoiFromMetaTags_last_wins
    (p : Page) (l1 l2 l3 : list Element) (m1 m2 : Element) (v1 v2 : string) :
  document p = l1 ++ m1 :: l2 ++ m2 :: l3 ->
  metaDoi m1 = Some v1 ->
  metaDoi m2 = Some v2 ->
  v1 <> v2 ->
  acceptedDois l3 = [] ->
  findDoiFromMetaTags p = Str v2 /\ findDoiFromMetaTags p <> Str v1.
Proof.
  intros Hdoc H1 H2 Hne H3.
  assert (H : findDoiFromMetaTags p = Str v2).
  { rewrite findDoiFromMetaTags_last, Hdoc.
    rewrite acceptedDois_app, acceptedDois_cons, H1.
    rewrite acceptedDois_app, acceptedDois_cons, H2, H3.
    change (acceptedDois l1 ++ v1 :: acceptedDois l2 ++ [v2])
      with (acceptedDois l1 ++ (v1 :: acceptedDois l2) ++ [v2]).
    rewrite app_assoc, last_snoc. reflexivity. }
  split; [exact H |]. rewrite H. congruence.
Qed.

Lemma findDoiFromMetaTags_last_wins_witness :
  findDoiFromMetaTags pageTwoMetas = Str "10.1000/second" /\
  findDoiFromMetaTags pageTwoMetas <> Str "10.1000/first".
Proof.
  apply (findDoiFromMetaTags_last_wins pageTwoMetas
           []
           [ mkElement "link" [("rel", "stylesheet")] "" ]
           [ mkElement "meta" [("name", "viewport"); ("content", "10.1000/third")] "" ]
           (mkElement "meta" [("name", "citation_doi"); ("content", "10.1000/first")] "")
           (mkElement "meta" [("name", "DC.Identifier"); ("content", "doi:10.1000/second")] "")).
  - reflexivity.
  - vm_compute. reflexivity.
  - vm_compute. reflexivity.
  - discriminate.
  - vm_compute. reflexivity.
Defined.

(** C6.  The data-attribute scan returns a value exactly when the [data-doi]
    values of the page have one distinct value, and that value is the one
    returned; otherwise it returns [null].  Three elements with the same
    value give that value, two elements with different values give [null],
    and so does a page without such elements. *)
Theorem findDoiFromDataDoiAttributes_one_distinct (p : Page) :
  (forall v : string,
      findDoiFromDataDoiAttributes p = Str v <-> OneDistinct (dataDois (document p)) v) /\
  ((~ exists v, OneDistinct (dataDois (document p)) v) ->
      findDoiFromDataDoiAttributes p = Null) /\
  (forall v : string,
      dataDois (document p) = [v; v; v] -> findDoiFromDataDoiAttributes p = Str v) /\
  (forall v1 v2 : string,
      v1 <> v2 -> dataDois (document p) = [v1; v2] ->
      findDoiFromDataDoiAttributes p = Null) /\
  (dataDois (document p) = [] -> findDoiFromDataDoiAttributes p = Null).
Proof.
  split; [| split; [| split; [| split]]].
  - intros v. split; [| apply findDoiFromDataDoiAttributes_one].
    intros H.
    destruct (Nat.eqb_spec (size (list_to_set (dataDois (document p)) : gset string)) 1)
      as [E | E].
    + apply size_one_iff in E as [x Hx].
      rewrite (findDoiFromDataDoiAttributes_one p x Hx) in H. injection H as ->. exact Hx.
    + rewrite findDoiFromDataDoiAttributes_other in H; [discriminate |].
      rewrite <- size_one_iff. exact E.
  - apply findDoiFromDataDoiAttributes_other.
  - intros v H. apply findDoiFromDataDoiAttributes_one. rewrite H. split; [discriminate |].
    intros x Hx. repeat (apply elem_of_cons in Hx as [-> | Hx]); [reflexivity.. | inversion Hx].
  - intros v1 v2 Hne H. apply findDoiFromDataDoiAttributes_other. rewrite H.
    intros (v & _ & Hall). apply Hne.
    rewrite (Hall v1) by left. rewrite (Hall v2) by (right; left). reflexivity.
  - intros H. apply findDoiFromDataDoiAttributes_other. rewrite H.
    intros (v & Hnil & _). congruence.
Qed.

Lemma findDoiFromDataDoiAttributes_one_distinct_witness :
  findDoiFromDataDoiAttributes pageThreeDataDois = Str "10.1000/182" /\
  findDoiFromDataDoiAttributes pageTwoMetas = Null.
Proof.
  split.
  - apply (proj1 (proj2 (proj2 (findDoiFromDataDoiAttributes_one_distinct pageThreeDataDois)))
             "10.1000/182").
    vm_compute. reflexivity.
  - apply (proj2 (proj2 (proj2 (proj2 (findDoiFromDataDoiAttributes_one_distinct pageTwoMetas))))).
    vm_compute. reflexivity.
Defined.

(** C7.  The content [10.1234/doi:abc] of a qualifying meta element has no
    leading [doi:], so with the prefix stripped as the claim says the scan
    would accept it as it stands; [replace('doi:', '')] removes the [doi:]
    inside it, and the scan returns [10.1234/abc]. *)
Lemma metaTags_leading_prefix_refuted :
  qualifying metaInnerDoi = true /\
  specMetaDoi metaInnerDoi = Some "10.1234/doi:abc" /\
  findDoiFromMetaTags pageInnerDoi = Str "10.1234/abc" /\
  findDoiFromMetaTags pageInnerDoi
  <> match specMetaDoi metaInnerDoi with Some v => Str v | None => Null end.
Proof.
  split; [vm_compute; reflexivity |]. split; [vm_compute; reflexivity |].
  split; [vm_compute; reflexivity |]. vm_compute. discriminate.
Qed.

(** The element of [pageEmptyScheme] declares a scheme attribute whose value
    is not [doi], and the scan accepts it all the same: the page without it
    has no DOI. *)
Lemma metaTags_empty_scheme_kept :
  getAttribute (attributes metaEmptyScheme) "scheme" = Some "" /\
  "" <> "doi" /\
  findDoiFromMetaTags pageEmptyScheme = Str "10.1000/182" /\
  findDoiFromMetaTags pageEmptyScheme <> findDoiFromMetaTags (withDocument pageEmptyScheme []).
Proof.
  split; [reflexivity |]. split; [discriminate |]. split; [vm_compute; reflexivity |].
  vm_compute. discriminate.
Qed.

(** C8, amended.  The meta-tag scan leaves out every element that declares
    a non-empty scheme other than [doi], whatever its name and content: the
    callback keeps the value it had, and the scan gives what it gives on the
    page without that element.  An element that declares an empty scheme is
    treated like one without a scheme: the callback and the scan give what
    they give with an element of the same tag, name and content that has no
    scheme attribute in its place. *)
Theorem metaTags_scheme_excluded (p : Page) (pre post : list Element) (e : Element) :
  document p = pre ++ e :: post ->
  (forall sch : string,
      getAttribute (attributes e) "scheme" = Some sch ->
      sch <> "" ->
      sch <> "doi" ->
      (forall doi : JsVal, metaStep doi e = doi) /\
      findDoiFromMetaTags p = findDoiFromMetaTags (withDocument p (pre ++ post))) /\
  (getAttribute (attributes e) "scheme" = Some "" ->
   forall e' : Element,
     tagName e' = tagName e ->
     reflected e' "name" = reflected e "name" ->
     reflected e' "content" = reflected e "content" ->
     getAttribute (attributes e') "scheme" = None ->
     (forall doi : JsVal, metaStep doi e = metaStep doi e') /\
     findDoiFromMetaTags p = findDoiFromMetaTags (withDocument p (pre ++ e' :: post))).
Proof.
  intros Hdoc. split.
  - intros sch Hs H1 H2. split.
    + intros doi. unfold metaStep, reflected. rewrite Hs. cbn [from_option id truthy strictEq].
      destruct (String.eqb_spec sch "") as [|_]; [contradiction |].
      destruct (String.eqb_spec sch "doi") as [|_]; [contradiction |].
      cbn [negb andb].
      repeat (match goal with |- context [if ?x then _ else _] => destruct x end);
        reflexivity.
    + rewrite !findDoiFromMetaTags_last, Hdoc. cbn [withDocument document].
      rewrite !acceptedDois_app, acceptedDois_cons, (metaDoi_scheme e sch Hs H1 H2).
      reflexivity.
  - intros Hs e' Htag Hname Hcontent Hs'.
    assert (Hscheme : reflected e' "scheme" = reflected e "scheme").
    { unfold reflected. rewrite Hs, Hs'. reflexivity. }
    split.
    + intros doi. unfold metaStep. rewrite Hname, Hscheme, Hcontent. reflexivity.
    + assert (Hsame : metaDoi e' = metaDoi e).
      { unfold metaDoi, qualifying, namedForDoi, schemeAllows, candidateOf.
        rewrite Htag, Hname, Hscheme, Hcontent. reflexivity. }
      rewrite !findDoiFromMetaTags_last, Hdoc. cbn [withDocument document].
      rewrite !acceptedDois_app, !acceptedDois_cons, Hsame. reflexivity.
Qed.

Lemma metaTags_scheme_excluded_witness :
  findDoiFromMetaTags pageSchemeMeta = Str "10.1177/00034894991080S423" /\
  findDoiFromMetaTags pageEmptyScheme
  = findDoiFromMetaTags
      (withDocument pageEmptyScheme
         [ mkElement "meta" [("name", "citation_doi"); ("content", "10.1000/182")] "" ]).
Proof.
  split.
  - destruct (metaTags_scheme_excluded pageSchemeMeta
                [ mkElement "meta" [("name", "dc.identifier"); ("scheme", "doi");
                                    ("content", "10.1177/00034894991080S423")] "" ]
                []
                (mkElement "meta" [("name", "dc.identifier"); ("scheme", "publisher-id");
                                   ("content", "10.1177_00034894991080S423")] "")
                eq_refl) as [H _].
    destruct (H "publisher-id" eq_refl) as [_ Hscan]; [discriminate | discriminate |].
    rewrite Hscan. vm_compute. reflexivity.
  - destruct (metaTags_scheme_excluded pageEmptyScheme [] [] metaEmptyScheme eq_refl)
      as [_ H].
    apply (H eq_refl
             (mkElement "meta" [("name", "citation_doi"); ("content", "10.1000/182")] ""));
      reflexivity.
Defined.

(** C9.  The finders are the eight strategies, each with two outcomes: its
    value is found, and then it is a non-empty string, or it is not found.
    On a page without the markers a strategy looks for, that strategy's
    value is not found; and when no strategy's value is found, [findDoi] has
    called all eight, in order, and returns [undefined]. *)
Theorem no_markers_not_found (p : Page) :
  doiFinderFunctions = map finderOf strategies /\
  (forall s : Strategy,
      (exists d : string, finderOf s p = Str d /\ d <> "" /\ Found (finderOf s p))
      \/ NotFound (finderOf s p)) /\
  (forall s : Strategy, NoMarkersOf s p -> NotFound (finderOf s p)) /\
  ((forall s : Strategy, NotFound (finderOf s p)) ->
      findDoi p = Undefined /\ findDoiCalls p = seq 0 8).
Proof.
  split; [reflexivity |]. split; [| split].
  - intros s. destruct (truthy (finderOf s p)) eqn:E; [left | right; exact E].
    destruct (found_plain_string _ E (finders_plain p _ (finderOf_elem s))) as (d & Hd & Hne).
    exists d. auto.
  - intros s. apply no_markers_finder.
  - intros H. unfold findDoi, findDoiCalls.
    rewrite (tryFinders_none p doiFinderFunctions 0); [split; reflexivity |].
    change doiFinderFunctions with (map finderOf strategies).
    apply Forall_fmap, Forall_forall. intros s _. apply H.
Qed.

Lemma no_markers_not_found_witness :
  (forall s : Strategy, NoMarkersOf s pageNoMarkers) /\
  findDoi pageNoMarkers = Undefined /\
  findDoiCalls pageNoMarkers = seq 0 8.
Proof.
  assert (H : forall s : Strategy, NoMarkersOf s pageNoMarkers).
  { intros s. destruct s; cbn [NoMarkersOf];
    repeat match goal with
           | |- _ /\ _ => split
           | |- forall e, e ∈ _ -> _ =>
               let He := fresh in
               intros ? He; cbn [pageNoMarkers document] in He;
               repeat (apply elem_of_cons in He as [-> | He]);
               [vm_compute; reflexivity.. | inversion He]
           | |- ~ Occurs _ _ => apply exec_None_iff; vm_compute; reflexivity
           | |- ~ HasDoiShape _ =>
               rewrite <- reTitle_Occurs; apply exec_None_iff; vm_compute; reflexivity
           end. }
  destruct (no_markers_not_found pageNoMarkers) as (_ & _ & Hnone & Hall).
  split; [exact H |]. apply Hall. intros s. apply Hnone, H.
Defined.

(** C10.  A finder value that is the empty string counts as not found:
    [findDoi] gives what it gives without that finder, so the Pubmed finder
    returning the text of an empty anchor leaves the decision to the
    remaining finders; and whenever the value of [findDoi] is found, it is a
    non-empty string. *)
Theorem findDoi_skips_empty (p : Page) :
  (forall (n : nat) (f : Finder),
      doiFinderFunctions !! n = Some f -> f p = Str "" ->
      findDoi p = fst (tryFinders (delete n doiFinderFunctions) 0 p)) /\
  (findDoiFromPubmed p = Str "" ->
      findDoi p =
      fst (tryFinders
             [ findDoiFromMetaTags; findDoiFromDataDoiAttributes; findDoiFromScienceDirect;
               findDoiFromIeee; findDoiFromNumber; findDoiFromPsycnet; findDoiFromTitle ]
             0 p)) /\
  (Found (findDoi p) -> exists s : string, findDoi p = Str s /\ s <> "").
Proof.
  assert (Hskip : forall (n : nat) (f : Finder),
      doiFinderFunctions !! n = Some f -> f p = Str "" ->
      findDoi p = fst (tryFinders (delete n doiFinderFunctions) 0 p)).
  { intros n f Hn Hf.
    destruct (split_at_lookup _ _ _ Hn) as [Hsplit Hlen].
    rewrite delete_take_drop. unfold findDoi. rewrite Hsplit at 1.
    apply tryFinders_skip. unfold NotFound. rewrite Hf. reflexivity. }
  split; [exact Hskip |]. split.
  - intros Hf. exact (Hskip 6%nat findDoiFromPubmed eq_refl Hf).
  - intros Hfound. apply found_plain_string; [exact Hfound |].
    unfold findDoi in *.
    destruct (tryFinders_value p doiFinderFunctions 0) as [H | (f & Hin & _ & H)].
    + rewrite H in Hfound. discriminate.
    + rewrite H. apply finders_plain, Hin.
Qed.

Lemma findDoi_skips_empty_witness :
  findDoiFromPubmed pagePubmedEmptyAnchor = Str "" /\
  findDoi pagePubmedEmptyAnchor = Str "10.5555/from.title" /\
  exists s : string, findDoi pagePubmedEmptyAnchor = Str s /\ s <> "".
Proof.
  destruct (findDoi_skips_empty pagePubmedEmptyAnchor) as (_ & Hpubmed & Hfound).
  split; [vm_compute; reflexivity |]. split.
  - rewrite Hpubmed; vm_compute; reflexivity.
  - apply Hfound. vm_compute. reflexivity.
Defined.

(** * Further properties of the code *)

(** ** Capture groups, match positions and quantifiers *)

Lemma Matches_nogroup (ic : bool) (r : Regex) :
  hasGroup r = false ->
  forall w cap cap', Matches ic r w cap cap' -> cap' = cap.
Proof.
  induction r as [|cs|r1 IH1 r2 IH2|g lo hi cs|r IH]; cbn [hasGroup Matches]; intros Hg w cap cap' M.
  - tauto.
  - tauto.
  - apply orb_false_elim in Hg as [H1 H2].
    destruct M as (w1 & w2 & cap1 & _ & M1 & M2).
    rewrite (IH2 H2 _ _ _ M2). exact (IH1 H1 _ _ _ M1).
  - tauto.
  - discriminate.
Qed.

Lemma Matches_group (ic : bool) (r : Regex) :
  hasGroup r = true ->
  forall w cap cap', Matches ic r w cap cap' -> exists g, cap' = Some g.
Proof.
  induction r as [|cs|r1 IH1 r2 IH2|g lo hi cs|r IH]; cbn [hasGroup Matches]; intros Hg w cap cap' M;
    try discriminate.
  - destruct M as (w1 & w2 & cap1 & _ & M1 & M2).
    destruct (hasGroup r2) eqn:H2.
    + exact (IH2 eq_refl _ _ _ M2).
    + rewrite orb_false_r in Hg.
      rewrite (Matches_nogroup ic r2 H2 _ _ _ M2). exact (IH1 Hg _ _ _ M1).
  - destruct M as [_ ->]. eauto.
Qed.

Lemma exec_leftmost (re : RegExp) (s : string) (m : MatchArray) :
  exec re s = Some m ->
  exists pre w post cap,
    LeftmostAt re s pre w post /\
    Matches (ignoreCase re) (pattern re) w None cap /\ m = matchArray w cap.
Proof.
  revert m. induction s as [|c s IH]; intros m H; simpl in H.
  - destruct (matchAt re "") eqn:E; [| discriminate]. injection H as ->.
    apply matchAt_sound in E as (w & rest & cap & Hs & M & ->).
    exists "", w, rest, cap. repeat split; auto. intros. simpl. lia.
  - destruct (matchAt re (String c s)) eqn:E.
    + injection H as ->.
      apply matchAt_sound in E as (w & rest & cap & Hs & M & ->).
      exists "", w, rest, cap. repeat split; auto. intros. simpl. lia.
    + apply IH in H as (pre & w & post & cap & [-> Hleft] & M & ->).
      exists (String c pre), w, post, cap. repeat split; auto.
      intros pre' w' post' Hs L. destruct pre' as [|d pre'].
      * rewrite sapp_nil_l in Hs. pose proof (matchAt_complete re w' post' L) as [x Hx].
        rewrite <- Hs, E in Hx. discriminate.
      * rewrite !sapp_cons in Hs. injection Hs as _ Hs.
        specialize (Hleft pre' w' post' Hs L). simpl. lia.
Qed.

Section Quantifiers.
Context {A : Type}.
Variable ic : bool.

(** A greedy unbounded quantifier before a continuation that accepts any
    rest takes the whole run of matching characters. *)
Lemma repeatMatcher_greedy_run (cs : CharSet) (s : string) :
  forall (lo : nat) (k : string -> option A) (a : A),
    (forall rest, is_Some (k rest)) ->
    repeatMatcher ic true lo None cs s k = Some a ->
    exists w rest,
      s = w +:+ rest /\ allChars (charMatches ic cs) w = true /\
      (lo <= String.length w)%nat /\ stopsAt (charMatches ic cs) rest /\ k rest = Some a.
Proof.
  induction s as [|c s IH]; intros lo k a Hk H.
  - simpl in H. destruct lo; [| discriminate].
    exists "", "". repeat split; auto. intros c Hc. discriminate.
  - simpl in H. destruct (charMatches ic cs c) eqn:Hc.
    + destruct (repeatMatcher ic true (pred lo) None cs s k) eqn:R.
      * injection H as ->. apply IH in R as (w & rest & -> & Hall & Hlo & Hstop & Hr); auto.
        exists (String c w), rest. rewrite sapp_cons. simpl. rewrite Hc, Hall.
        repeat split; auto. lia.
      * exfalso. destruct lo; [| discriminate]. simpl in R.
        assert (Hsome : is_Some (repeatMatcher ic true 0 None cs s k)).
        { clear -Hk. induction s as [|d s IH]; simpl.
          - apply Hk.
          - destruct (charMatches ic cs d); simpl; [| apply Hk].
            destruct IH as [x ->]. eauto. }
        rewrite R in Hsome. destruct Hsome; discriminate.
    + destruct lo; [| discriminate].
      exists "", (String c s). repeat split; auto.
      intros d Hd. injection Hd as <-. exact Hc.
Qed.

(** A lazy quantifier stops at the first point where the continuation
    succeeds. *)
Lemma repeatMatcher_lazy_first (cs : CharSet) (s : string) :
  forall (k : string -> option A) (a : A),
    repeatMatcher ic false 0 None cs s k = Some a ->
    exists w rest,
      s = w +:+ rest /\ allChars (charMatches ic cs) w = true /\ k rest = Some a /\
      forall w' rest',
        s = w' +:+ rest' -> (String.length w' < String.length w)%nat -> k rest' = None.
Proof.
  induction s as [|c s IH]; intros k a H.
  - simpl in H. exists "", "". repeat split; auto.
    + destruct (k ""); [exact H | discriminate].
    + intros w' rest' _ Hlt. simpl in Hlt. lia.
  - simpl in H. destruct (k (String c s)) eqn:K.
    + injection H as ->. exists "", (String c s). repeat split; auto.
      intros w' rest' _ Hlt. simpl in Hlt. lia.
    + destruct (charMatches ic cs c) eqn:Hc; [| discriminate]. simpl in H.
      apply IH in H as (w & rest & -> & Hall & Hr & Hmin).
      exists (String c w), rest. rewrite sapp_cons. simpl. rewrite Hc, Hall.
      repeat split; auto.
      intros w' rest' Hs Hlt. destruct w' as [|d w'].
      * rewrite sapp_nil_l in Hs. rewrite <- Hs. exact K.
      * rewrite sapp_cons in Hs. injection Hs as _ Hs. apply (Hmin w' rest' Hs).
        simpl in Hlt. lia.
Qed.
End Quantifiers.

(** ** runRegexOnDoc *)

Lemma hostPermits_iff (p : Page) (host : JsVal) :
  negb (truthy host) || strictEq host (Str (myHost p)) = true <-> hostPermits p host.
Proof.
  unfold hostPermits. rewrite orb_true_iff, negb_true_iff. split.
  - intros [H | H]; [left; exact H |]. right.
    destruct host as [| | b | h]; try discriminate.
    apply String.eqb_eq in H. congruence.
  - intros [H | ->]; [left; exact H |]. right. apply String.eqb_refl.
Qed.

Lemma exec_Occurs (re : RegExp) (s : string) : is_Some (exec re s) -> Occurs re s.
Proof.
  intros [m H]. apply exec_sound in H as (pre & w & post & cap & -> & M & _).
  exists pre, w, post. split; [reflexivity |]. exists cap. exact M.
Qed.

(** X1.  A pattern without a capture group makes [runRegexOnDoc] return
    [false] on every page and for every host argument, also where the
    pattern matches: the match array has length 1 then. *)
Theorem runRegexOnDoc_needs_group (p : Page) (re : RegExp) (host : JsVal) :
  hasGroup (pattern re) = false -> runRegexOnDoc p re host = Bool false.
Proof.
  intros Hg. unfold runRegexOnDoc.
  destruct (negb (truthy host) || strictEq host (Str (myHost p))); [| reflexivity].
  destruct (exec re (docAsStr p)) as [m|] eqn:E; [| reflexivity].
  apply exec_sound in E as (pre & w & post & cap & _ & M & ->).
  rewrite (Matches_nogroup _ _ Hg _ _ _ M). reflexivity.
Qed.

Lemma runRegexOnDoc_needs_group_witness :
  is_Some (exec reNoGroup (docAsStr pageIeee)) /\
  runRegexOnDoc pageIeee reNoGroup Undefined = Bool false.
Proof.
  split.
  - vm_compute. eauto.
  - apply runRegexOnDoc_needs_group. reflexivity.
Defined.

Lemma runRegexOnDoc_cases (p : Page) (re : RegExp) (host : JsVal) :
  hasGroup (pattern re) = true ->
  (runRegexOnDoc p re host = Bool false /\
   (hostPermits p host -> ~ Occurs re (docAsStr p))) \/
  (exists v pre w post,
      runRegexOnDoc p re host = Str v /\ hostPermits p host /\
      LeftmostAt re (docAsStr p) pre w post /\
      Matches (ignoreCase re) (pattern re) w None (Some v)).
Proof.
  intros Hg. unfold runRegexOnDoc.
  destruct (negb (truthy host) || strictEq host (Str (myHost p))) eqn:Hh.
  - apply hostPermits_iff in Hh.
    destruct (exec re (docAsStr p)) as [m|] eqn:E.
    + right. apply exec_leftmost in E as (pre & w & post & cap & Hleft & M & ->).
      destruct (Matches_group _ _ Hg _ _ _ M) as [g ->].
      exists g, pre, w, post. auto.
    + left. split; [reflexivity |]. intros _. apply exec_None_iff, E.
  - left. split; [reflexivity |]. intros H. apply hostPermits_iff in H. congruence.
Qed.

Lemma groupCount_hasGroup (r : Regex) : groupCount r <> 0%nat -> hasGroup r = true.
Proof.
  induction r as [|cs|r1 IH1 r2 IH2|g lo hi cs|r IH]; cbn [groupCount hasGroup]; intros H;
    try congruence.
  destruct (groupCount r1) as [|n] eqn:E1.
  - rewrite IH2 by exact H. apply orb_true_r.
  - rewrite IH1 by discriminate. reflexivity.
Qed.

(** X2.  For a pattern with exactly one capture group and without the [g]
    flag (as every pattern index.js passes), [runRegexOnDoc] returns either
    [false] or a string.  A string is the text of the group in the leftmost
    match of the pattern in the markup, and is returned only when the host
    argument is unset or is the page's host; under that condition a pattern
    that matches somewhere in the markup always yields a string. *)
Theorem runRegexOnDoc_value (p : Page) (re : RegExp) (host : JsVal) :
  groupCount (pattern re) = 1%nat ->
  global re = false ->
  (runRegexOnDoc p re host = Bool false \/ exists v, runRegexOnDoc p re host = Str v) /\
  (forall v : string,
      runRegexOnDoc p re host = Str v ->
      hostPermits p host /\
      exists pre w post,
        LeftmostAt re (docAsStr p) pre w post /\
        Matches (ignoreCase re) (pattern re) w None (Some v)) /\
  (hostPermits p host -> Occurs re (docAsStr p) ->
      exists v, runRegexOnDoc p re host = Str v).
Proof.
  intros Hone _.
  assert (Hg : hasGroup (pattern re) = true)
    by (apply groupCount_hasGroup; rewrite Hone; discriminate).
  destruct (runRegexOnDoc_cases p re host Hg)
    as [[Hf Hno] | (v & pre & w & post & Hv & Hh & Hleft & M)].
  - rewrite Hf. split; [left; reflexivity |]. split; [discriminate |].
    intros Hh Ho. exfalso. exact (Hno Hh Ho).
  - rewrite Hv. split; [right; eauto |]. split; [| eauto].
    intros v' Hv'. injection Hv' as <-. split; [exact Hh |]. eauto.
Qed.

Lemma runRegexOnDoc_value_witness :
  exists v, runRegexOnDoc pageIeee reIeee (Str "ieeexplore.ieee.org") = Str v.
Proof.
  apply (proj2 (proj2 (runRegexOnDoc_value pageIeee reIeee (Str "ieeexplore.ieee.org")
                         eq_refl eq_refl))).
  - right. reflexivity.
  - apply exec_Occurs. vm_compute. eauto.
Defined.

(** ** The IEEE finder *)

Lemma charMatches_notApostrophe (c : ascii) :
  charMatches false (notCls [One "'"]) c = notApostrophe c.
Proof. unfold notApostrophe. cbn. rewrite orb_false_r. reflexivity. Qed.

Lemma Matches_reIeee (w : string) (cap : option string) :
  Matches false (pattern reIeee) w None cap <->
  exists v, w = "'doi':'" +:+ v +:+ "'" /\ v <> "" /\
            allChars notApostrophe v = true /\ cap = Some v.
Proof.
  cbn [reIeee pattern seqs plus Matches]. split.
  - intros (w1 & w2 & c1 & -> & M1 & (v & w3 & c2 & -> & [(c0 & Hall & Hlo & _ & _) ->]
              & (q & e & c3 & -> & Mq & -> & ->))).
    apply Matches_lit in M1 as [-> ->]. apply Matches_lit in Mq as [-> ->].
    rewrite (allChars_ext _ _ _ charMatches_notApostrophe) in Hall.
    exists v. rewrite sapp_nil_r. repeat split; auto.
    intros ->. simpl in Hlo. lia.
  - intros (v & -> & Hne & Hall & ->).
    exists "'doi':'", (v +:+ "'"), None. split; [reflexivity |].
    split; [apply Matches_lit; auto |].
    exists v, "'", (Some v). split; [reflexivity |]. split.
    + split; [| reflexivity]. exists None.
      rewrite (allChars_ext _ _ _ charMatches_notApostrophe).
      repeat split; auto. destruct v; [congruence | simpl; lia].
    + exists "'", "", (Some v). split; [reflexivity |].
      split; [apply Matches_lit; auto | auto].
Qed.

Lemma hostPermits_string (p : Page) (host : string) :
  host <> "" -> hostPermits p (Str host) <-> myHost p = host.
Proof.
  intros Hne. unfold hostPermits. cbn [truthy]. split.
  - intros [H | H]; [| congruence].
    apply negb_false_iff, String.eqb_eq in H. contradiction.
  - intros ->. right. reflexivity.
Qed.

(** X3.  A string the IEEE finder returns is what stands between the
    quotes of the leftmost ['doi':'...'] of the markup whose value is not
    empty: it is not empty, holds no apostrophe, and the page's host is
    [ieeexplore.ieee.org].  On that host, markup that holds such a fragment
    always gives a found value. *)
Theorem findDoiFromIeee_value (p : Page) :
  (forall v : string,
      findDoiFromIeee p = Str v ->
      myHost p = "ieeexplore.ieee.org" /\
      v <> "" /\ allChars notApostrophe v = true /\
      exists pre post,
        docAsStr p = pre +:+ "'doi':'" +:+ v +:+ "'" +:+ post /\
        forall pre' v' post',
          docAsStr p = pre' +:+ "'doi':'" +:+ v' +:+ "'" +:+ post' ->
          v' <> "" -> allChars notApostrophe v' = true ->
          (String.length pre <= String.length pre')%nat) /\
  (myHost p = "ieeexplore.ieee.org" ->
   forall pre v post,
     docAsStr p = pre +:+ "'doi':'" +:+ v +:+ "'" +:+ post ->
     v <> "" -> allChars notApostrophe v = true ->
     Found (findDoiFromIeee p)).
Proof.
  assert (Hlang : forall v, v <> "" -> allChars notApostrophe v = true ->
                            Lang reIeee ("'doi':'" +:+ v +:+ "'")).
  { intros v Hne Hall. exists (Some v). apply Matches_reIeee. eauto. }
  unfold findDoiFromIeee.
  destruct (runRegexOnDoc_cases p reIeee (Str "ieeexplore.ieee.org") eq_refl)
    as [[Hf Hno] | (v & pre & w & post & Hv & Hh & [Hs Hleft] & M)].
  - rewrite Hf. split; [discriminate |].
    intros Hhost pre v post Hs Hne Hall. exfalso.
    apply Hno; [apply hostPermits_string; [discriminate | exact Hhost] |].
    exists pre, ("'doi':'" +:+ v +:+ "'"), post. split; [| auto].
    rewrite Hs, !sapp_assoc. reflexivity.
  - rewrite Hv. apply hostPermits_string in Hh; [| discriminate].
    apply Matches_reIeee in M as (g & -> & Hne & Hall & Hg). injection Hg as <-.
    split.
    + intros v' Hv'. injection Hv' as <-. repeat split; auto.
      exists pre, post. split; [rewrite Hs, !sapp_assoc; reflexivity |].
      intros pre' v' post' Hs' Hne' Hall'.
      apply (Hleft pre' ("'doi':'" +:+ v' +:+ "'") post'); [| auto].
      rewrite Hs', !sapp_assoc. reflexivity.
    + intros _ _ _ _ _ _ _. unfold Found. cbn [truthy].
      destruct (String.eqb_spec v ""); [contradiction | reflexivity].
Qed.

Lemma findDoiFromIeee_value_witness :
  Found (findDoiFromIeee pageIeee) /\
  exists pre post,
    docAsStr pageIeee = pre +:+ "'doi':'" +:+ "10.1109/5.771073" +:+ "'" +:+ post.
Proof.
  split.
  - apply (proj2 (findDoiFromIeee_value pageIeee) eq_refl
             "<script>var meta = {'title':'A paper'," "10.1109/5.771073"
             ",'pages':'9'};</script>").
    + reflexivity.
    + discriminate.
    + reflexivity.
  - destruct (proj1 (findDoiFromIeee_value pageIeee) "10.1109/5.771073")
      as (_ & _ & _ & pre & post & H & _); [vm_compute; reflexivity |].
    exists pre, post. exact H.
Defined.

(** ** Matches at a position *)

Lemma exec_matchAt (re : RegExp) (s : string) (m : MatchArray) :
  exec re s = Some m ->
  exists pre rest,
    s = pre +:+ rest /\ matchAt re rest = Some m /\
    forall pre' rest',
      s = pre' +:+ rest' -> (String.length pre' < String.length pre)%nat ->
      matchAt re rest' = None.
Proof.
  revert m. induction s as [|c s IH]; intros m H; simpl in H.
  - destruct (matchAt re "") eqn:E; [| discriminate]. injection H as ->.
    exists "", "". repeat split; auto. intros ? ? _ Hlt. simpl in Hlt. lia.
  - destruct (matchAt re (String c s)) eqn:E.
    + injection H as ->. exists "", (String c s). repeat split; auto.
      intros ? ? _ Hlt. simpl in Hlt. lia.
    + apply IH in H as (pre & rest & -> & Hm & Hmin).
      exists (String c pre), rest. repeat split; auto.
      intros pre' rest' Hs Hlt. destruct pre' as [|d pre'].
      * rewrite sapp_nil_l in Hs. rewrite <- Hs. exact E.
      * rewrite !sapp_cons in Hs. injection Hs as _ Hs.
        apply (Hmin pre' rest' Hs). simpl in Hlt. lia.
Qed.

Lemma runRegexOnDoc_exec (p : Page) (re : RegExp) (host : JsVal) (v : string) :
  runRegexOnDoc p re host = Str v ->
  hostPermits p host /\
  exists m, exec re (docAsStr p) = Some m /\ m !! 1%nat = Some v.
Proof.
  unfold runRegexOnDoc.
  destruct (negb (truthy host) || strictEq host (Str (myHost p))) eqn:Hh; [| discriminate].
  apply hostPermits_iff in Hh.
  destruct (exec re (docAsStr p)) as [m|]; [| discriminate].
  destruct (1 <? Z.of_nat (length m)); [| discriminate].
  destruct (m !! 1%nat) as [g|] eqn:E; [| discriminate].
  intros H. injection H as ->. eauto.
Qed.

(** A literal, then a group that takes a run of one or more characters of
    [cs]: the match is the literal and the whole run. *)
Lemma matchAt_lit_run (lead : string) (cs : CharSet) (s : string) (m : MatchArray) :
  matchAt (mkRegExp (seqs [ lit lead; Group (plus cs) ]) false false) s = Some m ->
  exists g rest,
    s = lead +:+ g +:+ rest /\ g <> "" /\
    allChars (charMatches false cs) g = true /\
    stopsAt (charMatches false cs) rest /\
    m = [ lead +:+ g; g ].
Proof.
  unfold matchAt. cbn [pattern ignoreCase seqs plus matcher]. intros H.
  apply matcher_sound in H as (w & rest1 & cap1 & Hs & M & H).
  apply Matches_lit in M as [-> ->].
  apply repeatMatcher_greedy_run in H as (g & rest & -> & Hall & Hlo & Hstop & H);
    [| intros; eauto].
  injection H as <-. exists g, rest. subst s.
  rewrite consumed_app.
  replace (consumed (lead +:+ g +:+ rest) rest) with (lead +:+ g)
    by (rewrite <- sapp_assoc, consumed_app; reflexivity).
  repeat split; auto. intros ->. simpl in Hlo. lia.
Qed.

Lemma Lang_lit_run (lead : string) (cs : CharSet) (g : string) :
  g <> "" -> allChars (charMatches false cs) g = true ->
  Lang (mkRegExp (seqs [ lit lead; Group (plus cs) ]) false false) (lead +:+ g).
Proof.
  intros Hne Hall. exists (Some g). cbn [pattern ignoreCase seqs plus Matches].
  exists lead, g, None. split; [reflexivity |]. split; [apply Matches_lit; auto |].
  exists g, "", (Some g). split; [rewrite sapp_nil_r; reflexivity |]. split; [| auto].
  split; [| reflexivity]. exists None. repeat split; auto.
  destruct g; [congruence | simpl; lia].
Qed.

(** [exec] on a literal followed by such a group: the value is the run that
    follows the leftmost occurrence of the literal that has a character of
    the run's set after it. *)
Lemma exec_lit_run (lead : string) (cs : CharSet) (s : string) (m : MatchArray) :
  exec (mkRegExp (seqs [ lit lead; Group (plus cs) ]) false false) s = Some m ->
  exists pre g post,
    s = pre +:+ lead +:+ g +:+ post /\
    g <> "" /\ allChars (charMatches false cs) g = true /\
    stopsAt (charMatches false cs) post /\
    m = [ lead +:+ g; g ] /\
    forall pre' c rest',
      s = pre' +:+ lead +:+ String c rest' ->
      charMatches false cs c = true ->
      (String.length pre <= String.length pre')%nat.
Proof.
  set (re := mkRegExp (seqs [ lit lead; Group (plus cs) ]) false false).
  intros E. apply exec_matchAt in E as (pre & rest & Hs & Hat & Hmin).
  apply matchAt_lit_run in Hat as (g & post & -> & Hne & Hall & Hstop & ->).
  exists pre, g, post. repeat split; auto.
  intros pre' c rest' Hs' Hc.
  destruct (Nat.le_gt_cases (String.length pre) (String.length pre')) as [|Hlt]; [assumption |].
  exfalso. specialize (Hmin pre' (lead +:+ String c rest') Hs' Hlt).
  assert (L : Lang re (lead +:+ String c "")).
  { apply Lang_lit_run; [discriminate |]. simpl. rewrite Hc. reflexivity. }
  pose proof (matchAt_complete re _ rest' L) as [x Hx].
  rewrite sapp_assoc, sapp_cons, sapp_nil_l in Hx. rewrite Hmin in Hx. discriminate.
Qed.

Lemma runRegexOnDoc_lit_run (p : Page) (lead : string) (cs : CharSet) (host : JsVal) :
  let re := mkRegExp (seqs [ lit lead; Group (plus cs) ]) false false in
  (forall v : string,
      runRegexOnDoc p re host = Str v ->
      hostPermits p host /\
      v <> "" /\ allChars (charMatches false cs) v = true /\
      exists pre post,
        docAsStr p = pre +:+ lead +:+ v +:+ post /\
        stopsAt (charMatches false cs) post /\
        forall pre' c rest',
          docAsStr p = pre' +:+ lead +:+ String c rest' ->
          charMatches false cs c = true ->
          (String.length pre <= String.length pre')%nat) /\
  (hostPermits p host ->
   forall pre c rest,
     docAsStr p = pre +:+ lead +:+ String c rest ->
     charMatches false cs c = true ->
     Found (runRegexOnDoc p re host)).
Proof.
  intros re. split.
  - intros v Hv. apply runRegexOnDoc_exec in Hv as (Hh & m & E & Hm).
    apply exec_lit_run in E as (pre & g & post & Hs & Hne & Hall & Hstop & -> & Hleft).
    cbn in Hm. injection Hm as ->.
    split; [exact Hh |]. split; [exact Hne |]. split; [exact Hall |].
    exists pre, post. auto.
  - intros Hh pre c rest Hs Hc.
    assert (Hg : hasGroup (pattern re) = true).
    { cbn [re pattern seqs hasGroup plus]. rewrite orb_true_r. reflexivity. }
    destruct (runRegexOnDoc_cases p re host Hg)
      as [[Hf Hno] | (v & pre0 & w & post & Hv & _ & _ & M)].
    + exfalso. apply (Hno Hh). exists pre, (lead +:+ String c ""), rest. split.
      * rewrite Hs, sapp_assoc. reflexivity.
      * apply Lang_lit_run; [discriminate |]. simpl. rewrite Hc. reflexivity.
    + rewrite Hv. cbn [pattern ignoreCase seqs plus Matches] in M.
      destruct M as (w1 & w2 & c1 & _ & _
                     & (g & e & c2 & _ & [(c0 & _ & Hlo & _) Hcap] & _ & Hcap')).
      rewrite Hcap in Hcap'. injection Hcap' as ->. unfold Found. cbn [truthy].
      destruct (String.eqb_spec g "") as [-> |]; [simpl in Hlo; lia | reflexivity].
Qed.

(** ** The Psycnet finder *)

(** X4.  A string the Psycnet finder returns is the rest of the line after
    the leftmost [href='/doi/10.] of the markup that has a character on its
    line after it: the value is not empty, holds no line terminator, and
    ends where the line or the markup ends; the page's host is
    [psycnet.apa.org].  On that host, markup with such a link always gives a
    found value. *)
Theorem findDoiFromPsycnet_rest_of_line (p : Page) :
  (forall v : string,
      findDoiFromPsycnet p = Str v ->
      myHost p = "psycnet.apa.org" /\
      v <> "" /\ allChars notLineTerminator v = true /\
      exists pre post,
        docAsStr p = pre +:+ "href='/doi/10." +:+ v +:+ post /\
        stopsAt notLineTerminator post /\
        forall pre' c rest',
          docAsStr p = pre' +:+ "href='/doi/10." +:+ String c rest' ->
          notLineTerminator c = true ->
          (String.length pre <= String.length pre')%nat) /\
  (myHost p = "psycnet.apa.org" ->
   forall pre c rest,
     docAsStr p = pre +:+ "href='/doi/10." +:+ String c rest ->
     notLineTerminator c = true ->
     Found (findDoiFromPsycnet p)).
Proof.
  destruct (runRegexOnDoc_lit_run p "href='/doi/10." Dot (Str "psycnet.apa.org")) as [H1 H2].
  split.
  - intros v Hv. destruct (H1 v Hv) as (Hh & Hne & Hall & pre & post & Hs & Hstop & Hleft).
    apply hostPermits_string in Hh; [| discriminate].
    split; [exact Hh |]. split; [exact Hne |]. split; [exact Hall |].
    exists pre, post. auto.
  - intros Hh. apply H2. apply hostPermits_string; [discriminate | exact Hh].
Qed.

Lemma findDoiFromPsycnet_rest_of_line_witness :
  Found (findDoiFromPsycnet pagePsycnet) /\
  allChars notLineTerminator "1037/0022-3514.79.5.748'>full text</a>" = true.
Proof.
  split.
  - apply (proj2 (findDoiFromPsycnet_rest_of_line pagePsycnet) eq_refl
             "<a " "1"%char "037/0022-3514.79.5.748'>full text</a>"); reflexivity.
  - destruct (proj1 (findDoiFromPsycnet_rest_of_line pagePsycnet)
                "1037/0022-3514.79.5.748'>full text</a>") as (_ & _ & H & _);
      [vm_compute; reflexivity | exact H].
Defined.

(** ** The NBER finder *)

Lemma startsWith_app (a b : string) : startsWith a (a +:+ b) = true.
Proof. apply startsWith_iff. eauto. Qed.

(** A match of the NBER pattern at the start of [s]: the label, [10], a run
    without line terminators that ends at the first closing tag, and the
    tag. *)
Lemma matchAt_reNumber (s : string) (m : MatchArray) :
  matchAt reNumber s = Some m ->
  exists t post,
    s = nberLabel +:+ "10" +:+ t +:+ "</p>" +:+ post /\
    allChars notLineTerminator t = true /\
    m = [ nberLabel +:+ "10" +:+ t +:+ "</p>"; "10" +:+ t ] /\
    forall t1 t2,
      t = t1 +:+ t2 -> t2 <> "" -> startsWith "</p>" (t2 +:+ "</p>" +:+ post) = false.
Proof.
  unfold matchAt. cbn [reNumber pattern ignoreCase seqs lazyStar matcher]. intros H.
  apply matcher_sound in H as (w & rest1 & cap1 & Hs & M & H).
  apply Matches_lit in M as [-> ->].
  apply matcher_sound in H as (w & rest2 & cap2 & Hs1 & M & H).
  apply Matches_lit in M as [-> ->].
  apply repeatMatcher_lazy_first in H as (t & rest3 & Hs2 & Hall & H & Hmin).
  pose proof H as H'.
  apply matcher_sound in H' as (w & post & cap3 & Hs3 & M & H').
  apply Matches_lit in M as [-> ->].
  injection H' as <-. subst rest3 rest2 rest1 s.
  exists t, post. fold nberLabel. split; [reflexivity |]. split; [exact Hall |]. split.
  - f_equal; [| f_equal].
    + replace (nberLabel +:+ "10" +:+ t +:+ "</p>" +:+ post)
        with ((nberLabel +:+ "10" +:+ t +:+ "</p>") +:+ post)
        by (rewrite !sapp_assoc; reflexivity).
      apply consumed_app.
    + f_equal. replace ("10" +:+ t +:+ "</p>" +:+ post)
        with (("10" +:+ t) +:+ "</p>" +:+ post) by (rewrite !sapp_assoc; reflexivity).
      apply consumed_app.
  - intros t1 t2 -> Hne.
    destruct (startsWith "</p>" (t2 +:+ "</p>" +:+ post)) eqn:E; [| reflexivity].
    exfalso. apply startsWith_iff in E as [x Hx].
    assert (Hlt : (String.length t1 < String.length (t1 +:+ t2))%nat).
    { rewrite slength_app. destruct t2; [congruence | simpl; lia]. }
    specialize (Hmin t1 (t2 +:+ "</p>" +:+ post)).
    rewrite sapp_assoc in Hmin. specialize (Hmin eq_refl Hlt).
    rewrite Hx in Hmin.
    match type of Hmin with
    | matcher false (lit "</p>") _ ?c ?k = None =>
        assert (Hsome : is_Some (matcher false (lit "</p>") ("</p>" +:+ x) c k));
        [ apply (matcher_complete false (lit "</p>") "</p>" x c c k);
          [ apply Matches_lit; split; reflexivity | intros c'; cbn [matcher]; eauto ]
        | rewrite Hmin in Hsome; destruct Hsome; discriminate ]
    end.
Qed.

Lemma Lang_reNumber (t : string) :
  allChars notLineTerminator t = true ->
  Lang reNumber (nberLabel +:+ "10" +:+ t +:+ "</p>").
Proof.
  intros Hall. exists (Some ("10" +:+ t)).
  cbn [reNumber pattern ignoreCase seqs lazyStar Matches].
  exists nberLabel, ("10" +:+ t +:+ "</p>"), None. split; [reflexivity |].
  split; [apply Matches_lit; auto |].
  exists ("10" +:+ t), "</p>", (Some ("10" +:+ t)).
  split; [rewrite sapp_assoc; reflexivity |]. split.
  - split; [| reflexivity]. exists None. exists "10", t, None.
    split; [reflexivity |]. split; [apply Matches_lit; auto |].
    repeat split; auto. lia.
  - exists "</p>", "", (Some ("10" +:+ t)). split; [reflexivity |].
    split; [apply Matches_lit; auto | auto].
Qed.

(** X5.  A string the NBER finder returns begins with [10], holds no line
    terminator, stands in the markup right after the label
    [Document Object Identifier (DOI): ] and right before a closing
    paragraph tag, and no closing paragraph tag begins inside it: the value
    ends at the first such tag.  The page's host is [www.nber.org]; on that
    host, markup with the label, [10], a run without line terminators and
    the tag always gives a found value. *)
Theorem findDoiFromNumber_value (p : Page) :
  (forall v : string,
      findDoiFromNumber p = Str v ->
      myHost p = "www.nber.org" /\
      startsWith "10" v = true /\ allChars notLineTerminator v = true /\
      exists pre post,
        docAsStr p = pre +:+ nberLabel +:+ v +:+ "</p>" +:+ post /\
        forall v1 v2,
          v = v1 +:+ v2 -> v2 <> "" ->
          startsWith "</p>" (v2 +:+ "</p>" +:+ post) = false) /\
  (myHost p = "www.nber.org" ->
   forall pre t post,
     docAsStr p = pre +:+ nberLabel +:+ "10" +:+ t +:+ "</p>" +:+ post ->
     allChars notLineTerminator t = true ->
     Found (findDoiFromNumber p)).
Proof.
  assert (Hvalue : forall v : string,
      findDoiFromNumber p = Str v ->
      myHost p = "www.nber.org" /\
      startsWith "10" v = true /\ allChars notLineTerminator v = true /\
      exists pre post,
        docAsStr p = pre +:+ nberLabel +:+ v +:+ "</p>" +:+ post /\
        forall v1 v2,
          v = v1 +:+ v2 -> v2 <> "" ->
          startsWith "</p>" (v2 +:+ "</p>" +:+ post) = false).
  { intros v Hv. unfold findDoiFromNumber in Hv.
    apply runRegexOnDoc_exec in Hv as (Hh & m & E & Hm).
    apply hostPermits_string in Hh; [| discriminate].
    apply exec_matchAt in E as (pre & rest & Hs & Hat & _).
    apply matchAt_reNumber in Hat as (t & post & -> & Hall & -> & Hmin).
    cbn in Hm. injection Hm as <-.
    split; [exact Hh |]. split; [reflexivity |]. split; [exact Hall |].
    exists pre, post. split; [rewrite Hs, !sapp_assoc; reflexivity |].
    intros v1 v2 Hsplit Hne.
    destruct v1 as [|a [|b v1]].
    - rewrite ?sapp_cons, ?sapp_nil_l in Hsplit. subst v2. reflexivity.
    - rewrite ?sapp_cons, ?sapp_nil_l in Hsplit. injection Hsplit as _ <-. reflexivity.
    - rewrite ?sapp_cons, ?sapp_nil_l in Hsplit. injection Hsplit as _ _ Ht.
      exact (Hmin v1 v2 Ht Hne). }
  split; [exact Hvalue |].
  intros Hhost pre t post Hs Hall.
  destruct (runRegexOnDoc_cases p reNumber (Str "www.nber.org") eq_refl)
    as [[_ Hno] | (v & _ & _ & _ & Hv & _)].
  - exfalso. apply Hno; [apply hostPermits_string; [discriminate | exact Hhost] |].
    exists pre, (nberLabel +:+ "10" +:+ t +:+ "</p>"), post.
    split; [rewrite Hs, !sapp_assoc; reflexivity | apply Lang_reNumber, Hall].
  - destruct (Hvalue v Hv) as (_ & H10 & _).
    unfold findDoiFromNumber. rewrite Hv. unfold Found. cbn [truthy].
    destruct (String.eqb_spec v "") as [-> |]; [discriminate | reflexivity].
Qed.

Lemma findDoiFromNumber_value_witness :
  Found (findDoiFromNumber pageNber) /\
  startsWith "10" "10.3386/w23298" = true.
Proof.
  split.
  - apply (proj2 (findDoiFromNumber_value pageNber) eq_refl
             "<p>" ".3386/w23298" "<p>Published: April 2017</p>"); reflexivity.
  - destruct (proj1 (findDoiFromNumber_value pageNber) "10.3386/w23298") as (_ & H & _);
      [vm_compute; reflexivity | exact H].
Defined.

(** ** The ScienceDirect finder *)

Lemma charMatches_space (c : ascii) : charMatches false (cls [ClsSpace]) c = isSpace c.
Proof. cbn. rewrite orb_false_r. reflexivity. Qed.

Lemma Matches_reScienceDirectVar (w : string) (cap : option string) :
  Matches false (pattern reScienceDirectVar) w None cap <->
  exists v, sdAssignment w v /\ cap = Some v.
Proof.
  cbn [reScienceDirectVar pattern seqs star plus Matches]. split.
  - intros (w1 & r1 & c1 & -> & M1
            & (w2 & r2 & c2 & -> & [(c & -> & Hc) ->]
            & (w3 & r3 & c3 & -> & M3
            & (ws1 & r4 & c4 & -> & (Hws1 & _ & _ & ->)
            & (w5 & r5 & c5 & -> & M5
            & (ws2 & r6 & c6 & -> & (Hws2 & _ & _ & ->)
            & (w7 & r7 & c7 & -> & M7
            & (v & r8 & c8 & -> & [(c0 & Hall & Hlo & _ & _) ->]
            & (w9 & r9 & c9 & -> & M9 & -> & ->))))))))).
    apply Matches_lit in M1 as [-> ->]. apply Matches_lit in M3 as [-> ->].
    apply Matches_lit in M5 as [-> ->]. apply Matches_lit in M7 as [-> ->].
    apply Matches_lit in M9 as [-> ->].
    rewrite (allChars_ext _ _ _ charMatches_space) in Hws1.
    rewrite (allChars_ext _ _ _ charMatches_space) in Hws2.
    rewrite (allChars_ext _ _ _ charMatches_notApostrophe) in Hall.
    exists v. split; [| reflexivity].
    exists c, ws1, ws2. rewrite sapp_nil_r. repeat split; auto.
    intros ->. simpl in Hlo. lia.
  - intros (v & (c & ws1 & ws2 & -> & Hc & Hws1 & Hws2 & Hne & Hall) & ->).
    exists "SDM", (String c "doi" +:+ ws1 +:+ "=" +:+ ws2 +:+ "'" +:+ v +:+ "'"), None.
    split; [reflexivity |]. split; [apply Matches_lit; auto |].
    exists (String c ""), ("doi" +:+ ws1 +:+ "=" +:+ ws2 +:+ "'" +:+ v +:+ "'"), None.
    split; [reflexivity |]. split; [split; [eauto | reflexivity] |].
    exists "doi", (ws1 +:+ "=" +:+ ws2 +:+ "'" +:+ v +:+ "'"), None.
    split; [reflexivity |]. split; [apply Matches_lit; auto |].
    exists ws1, ("=" +:+ ws2 +:+ "'" +:+ v +:+ "'"), None.
    split; [reflexivity |]. split.
    { rewrite (allChars_ext _ _ _ charMatches_space). repeat split; auto. lia. }
    exists "=", (ws2 +:+ "'" +:+ v +:+ "'"), None.
    split; [reflexivity |]. split; [apply Matches_lit; auto |].
    exists ws2, ("'" +:+ v +:+ "'"), None.
    split; [reflexivity |]. split.
    { rewrite (allChars_ext _ _ _ charMatches_space). repeat split; auto. lia. }
    exists "'", (v +:+ "'"), None.
    split; [reflexivity |]. split; [apply Matches_lit; auto |].
    exists v, "'", (Some v). split; [reflexivity |]. split.
    { split; [| reflexivity]. exists None.
      rewrite (allChars_ext _ _ _ charMatches_notApostrophe).
      repeat split; auto. destruct v; [congruence | simpl; lia]. }
    exists "'", "", (Some v). split; [reflexivity |].
    split; [apply Matches_lit; auto | auto].
Qed.

Lemma Occurs_reScienceDirectVar (s : string) :
  Occurs reScienceDirectVar s <-> hasSdAssignment s.
Proof.
  unfold Occurs, hasSdAssignment, Lang. split.
  - intros (pre & w & post & -> & cap & M).
    apply Matches_reScienceDirectVar in M as (v & Hv & _). eauto 6.
  - intros (pre & w & v & post & -> & Hv).
    exists pre, w, post. split; [reflexivity |]. exists (Some v).
    apply Matches_reScienceDirectVar. eauto.
Qed.

Lemma indexOf_Contains (s pat : string) : Contains s pat -> (indexOf s pat <? 0) = false.
Proof.
  intros H. apply Z.ltb_ge. destruct (Z.lt_ge_cases (indexOf s pat) 0) as [Hlt |]; [| assumption].
  apply indexOf_neg_iff in Hlt. contradiction.
Qed.

Lemma findDoiFromScienceDirect_script (p : Page) :
  Contains (myHost p) "sciencedirect" -> hasSdAssignment (docAsStr p) ->
  exists v pre w post,
    runRegexOnDoc p reScienceDirectVar Undefined = Str v /\
    findDoiFromScienceDirect p = Str v /\
    docAsStr p = pre +:+ w +:+ post /\ sdAssignment w v.
Proof.
  intros Hhost Hsd.
  destruct (runRegexOnDoc_cases p reScienceDirectVar Undefined eq_refl)
    as [[_ Hno] | (v & pre & w & post & Hv & _ & [Hs _] & M)].
  - exfalso. apply Hno; [left; reflexivity | apply Occurs_reScienceDirectVar, Hsd].
  - apply Matches_reScienceDirectVar in M as (v' & Hw & Hcap). injection Hcap as <-.
    exists v, pre, w, post. split; [exact Hv |]. split; [| auto].
    unfold findDoiFromScienceDirect. rewrite (indexOf_Contains _ _ Hhost), Hv.
    destruct Hw as (_ & _ & _ & _ & _ & _ & _ & Hne & _).
    cbn [truthy]. destruct (String.eqb_spec v ""); [contradiction | reflexivity].
Qed.

(** X6.  On a host that contains [sciencedirect], markup with an
    [SDM.doi = '...'] assignment decides the ScienceDirect finder: it returns
    the value of such an assignment, a non-empty string without apostrophe,
    and returns the same value whatever elements the page has; anchors of
    class [doi] are not consulted. *)
Theorem findDoiFromScienceDirect_script_first (p : Page) :
  Contains (myHost p) "sciencedirect" ->
  hasSdAssignment (docAsStr p) ->
  exists v : string,
    findDoiFromScienceDirect p = Str v /\
    v <> "" /\ allChars notApostrophe v = true /\
    (exists pre w post, docAsStr p = pre +:+ w +:+ post /\ sdAssignment w v) /\
    forall els : list Element, findDoiFromScienceDirect (withDocument p els) = Str v.
Proof.
  intros Hhost Hsd.
  destruct (findDoiFromScienceDirect_script p Hhost Hsd)
    as (v & pre & w & post & Hre & Hv & Hs & Hw).
  exists v. split; [exact Hv |].
  pose proof Hw as (_ & _ & _ & _ & _ & _ & _ & Hne & Hall).
  split; [exact Hne |]. split; [exact Hall |]. split; [eauto |].
  intros els.
  destruct (findDoiFromScienceDirect_script (withDocument p els) Hhost Hsd)
    as (v' & _ & _ & _ & Hre' & Hv' & _).
  change (runRegexOnDoc (withDocument p els) reScienceDirectVar Undefined)
    with (runRegexOnDoc p reScienceDirectVar Undefined) in Hre'.
  rewrite Hre in Hre'. injection Hre' as <-. exact Hv'.
Qed.

Lemma findDoiFromScienceDirect_script_first_witness :
  exists v : string,
    findDoiFromScienceDirect pageScienceDirectOld = Str v /\
    v <> "" /\ allChars notApostrophe v = true /\
    (exists pre w post,
        docAsStr pageScienceDirectOld = pre +:+ w +:+ post /\ sdAssignment w v) /\
    forall els : list Element,
      findDoiFromScienceDirect (withDocument pageScienceDirectOld els) = Str v.
Proof.
  apply findDoiFromScienceDirect_script_first.
  - exists "www.", ".com". reflexivity.
  - exists "<script>", "SDM.doi = '10.1016/j.joi.2009.03.006'",
           "10.1016/j.joi.2009.03.006", ";</script>".
    split; [reflexivity |].
    exists "."%char, " ", " ". repeat split; try reflexivity. discriminate.
Defined.

(** X7.  On a host that contains [sciencedirect], without an [SDM.doi]
    assignment in the markup, only the first anchor of class [doi] counts
    (in quirks mode the class is compared without regard to ASCII letter
    case).  The finder returns a string exactly when the content of that
    anchor holds a [doi.org/] with a character after it on its line, and
    [undefined] otherwise, whatever the later anchors hold; the string is
    the rest of the line after the leftmost such [doi.org/]. *)
Theorem findDoiFromScienceDirect_first_anchor
    (p : Page) (first : Element) (others : list Element) :
  Contains (myHost p) "sciencedirect" ->
  ~ hasSdAssignment (docAsStr p) ->
  querySelectorAll p SelADoi = first :: others ->
  (forall v : string,
      findDoiFromScienceDirect p = Str v ->
      v <> "" /\ allChars notLineTerminator v = true /\
      exists pre post,
        innerHTML first = pre +:+ "doi.org/" +:+ v +:+ post /\
        stopsAt notLineTerminator post /\
        forall pre' c rest',
          innerHTML first = pre' +:+ "doi.org/" +:+ String c rest' ->
          notLineTerminator c = true ->
          (String.length pre <= String.length pre')%nat) /\
  (forall pre c rest,
      innerHTML first = pre +:+ "doi.org/" +:+ String c rest ->
      notLineTerminator c = true ->
      exists v : string, findDoiFromScienceDirect p = Str v /\ v <> "") /\
  ((forall pre c rest,
       innerHTML first = pre +:+ "doi.org/" +:+ String c rest ->
       notLineTerminator c = false) ->
   findDoiFromScienceDirect p = Undefined) /\
  (~ Contains (innerHTML first) "doi.org/" -> findDoiFromScienceDirect p = Undefined) /\
  findDoiFromScienceDirect p = findDoiFromScienceDirect (withDocument p [first]).
Proof.
  intros Hhost Hsd Hq.
  assert (Hre : runRegexOnDoc p reScienceDirectVar Undefined = Bool false).
  { apply runRegexOnDoc_no_match. rewrite Occurs_reScienceDirectVar. exact Hsd. }
  assert (Hfirst : findDoiFromScienceDirect p =
            match exec reDoiOrg (innerHTML first) with
            | Some m =>
                if 1 <? Z.of_nat (length m)
                then match m !! 1%nat with Some g => Str g | None => Undefined end
                else Undefined
            | None => Undefined
            end).
  { unfold findDoiFromScienceDirect.
    rewrite (indexOf_Contains _ _ Hhost), Hre, Hq. reflexivity. }
  assert (Hnone : (forall pre c rest,
            innerHTML first = pre +:+ "doi.org/" +:+ String c rest ->
            notLineTerminator c = false) ->
          findDoiFromScienceDirect p = Undefined).
  { intros Hno. rewrite Hfirst.
    destruct (exec reDoiOrg (innerHTML first)) as [m|] eqn:E; [| reflexivity].
    exfalso.
    apply exec_lit_run in E as (pre & g & post & Hs & Hne & Hall & _).
    destruct g as [|c g]; [congruence |].
    rewrite sapp_cons in Hs. specialize (Hno pre c (g +:+ post) Hs).
    cbn [allChars] in Hall. apply andb_prop in Hall as [Hc _].
    change (charMatches false Dot c) with (notLineTerminator c) in Hc. congruence. }
  split; [| split; [| split; [| split]]].
  - intros v Hv. rewrite Hfirst in Hv.
    destruct (exec reDoiOrg (innerHTML first)) as [m|] eqn:E; [| discriminate].
    apply exec_lit_run in E as (pre & g & post & Hs & Hne & Hall & Hstop & -> & Hleft).
    cbn in Hv. injection Hv as <-. repeat split; auto. exists pre, post. auto.
  - intros pre c rest Hs Hc. rewrite Hfirst.
    assert (Ho : Occurs reDoiOrg (innerHTML first)).
    { exists pre, ("doi.org/" +:+ String c ""), rest. split.
      - rewrite Hs, sapp_assoc. reflexivity.
      - apply (Lang_lit_run "doi.org/" Dot); [discriminate |].
        cbn [allChars]. change (charMatches false Dot c) with (notLineTerminator c).
        rewrite Hc. reflexivity. }
    destruct (exec_complete reDoiOrg _ Ho) as [m E]. rewrite E.
    apply exec_lit_run in E as (pre0 & g & post & _ & Hne & _ & _ & -> & _).
    cbn. eauto.
  - exact Hnone.
  - intros Hno. apply Hnone. intros pre c rest Hs. exfalso. apply Hno.
    exists pre, (String c rest). exact Hs.
  - rewrite Hfirst. unfold findDoiFromScienceDirect.
    change (myHost (withDocument p [first])) with (myHost p).
    change (runRegexOnDoc (withDocument p [first]) reScienceDirectVar Undefined)
      with (runRegexOnDoc p reScienceDirectVar Undefined).
    rewrite (indexOf_Contains _ _ Hhost), Hre. cbn [truthy].
    assert (Hsel : selects (quirksMode p) SelADoi first = true).
    { assert (Hin : In first (querySelectorAll p SelADoi)) by (rewrite Hq; left; reflexivity).
      apply filter_In in Hin as [_ H]. exact H. }
    unfold querySelectorAll. cbn [withDocument document quirksMode List.filter].
    rewrite Hsel. reflexivity.
Qed.

Lemma findDoiFromScienceDirect_first_anchor_witness :
  findDoiFromScienceDirect pageScienceDirectNew = Undefined /\
  (exists v : string, findDoiFromScienceDirect pageScienceDirectQuirks = Str v /\ v <> "").
Proof.
  split.
  - assert (H := findDoiFromScienceDirect_first_anchor pageScienceDirectNew
                   (mkElement "a" [("class", "doi")] "DOI")
                   [ mkElement "a" [("class", "doi")] "https://doi.org/10.1016/j.x" ]).
    destruct H as (_ & _ & _ & Hundef & _).
    + exists "www.", ".com". reflexivity.
    + rewrite <- Occurs_reScienceDirectVar. apply exec_None_iff. vm_compute. reflexivity.
    + reflexivity.
    + apply Hundef. apply indexOf_neg_iff. vm_compute. reflexivity.
  - assert (H := findDoiFromScienceDirect_first_anchor pageScienceDirectQuirks
                   (mkElement "a" [("class", "article DOI")] "https://doi.org/10.1016/j.y")
                   [ mkElement "a" [("class", "doi")] "https://doi.org/10.1016/j.x" ]).
    destruct H as (_ & Hfound & _).
    + exists "www.", ".com". reflexivity.
    + rewrite <- Occurs_reScienceDirectVar. apply exec_None_iff. vm_compute. reflexivity.
    + reflexivity.
    + apply (Hfound "https://" "1"%char "0.1016/j.y"); reflexivity.
Defined.

(** ** The title finder *)

Lemma matcher_Seq {A : Type} (ic : bool) (r1 r2 : Regex) (s : string) (cap : option string)
    (k : string -> option string -> option A) :
  matcher ic (Seq r1 r2) s cap k
  = matcher ic r1 s cap (fun s' cap' => matcher ic r2 s' cap' k).
Proof. reflexivity. Qed.

Lemma matcher_Group {A : Type} (ic : bool) (r : Regex) (s : string) (cap : option string)
    (k : string -> option string -> option A) :
  matcher ic (Group r) s cap k
  = matcher ic r s cap (fun s' _ => k s' (Some (consumed s s'))).
Proof. reflexivity. Qed.

(** A match of the title pattern at the start of [s]: a DOI-shaped text
    that takes the whole run of suffix characters. *)
Lemma matchAt_reTitle (s : string) (m : MatchArray) :
  matchAt reTitle s = Some m ->
  exists d post,
    s = d +:+ post /\ DoiShaped d /\ stopsAt isDoiSuffixChar post /\ m = [ d; d ].
Proof.
  unfold matchAt. cbn [reTitle pattern ignoreCase seqs]. intros H.
  rewrite matcher_Group, matcher_Seq in H.
  apply matcher_sound in H as (w1 & r1 & c1 & Hs1 & M1 & H).
  rewrite matcher_Seq in H.
  apply matcher_sound in H as (w2 & r2 & c2 & Hs2 & M2 & H).
  rewrite matcher_Seq in H.
  apply matcher_sound in H as (w3 & r3 & c3 & Hs3 & M3 & H).
  rewrite matcher_Seq in H.
  apply matcher_sound in H as (w4 & r4 & c4 & Hs4 & M4 & H).
  cbn [matcher plus] in H.
  apply repeatMatcher_greedy_run in H as (suf & post & Hs5 & Hsuf & Hlo & Hstop & H);
    [| intros; eauto].
  injection H as <-.
  cbn [lit Matches] in M1, M2, M3, M4.
  destruct M1 as (x1 & x2 & c5 & -> & [(a1 & -> & Ha1) _]
                  & (x3 & x4 & c6 & -> & [(a2 & -> & Ha2) _] & -> & _)).
  destruct M2 as [(c & -> & Hc) _].
  destruct M3 as (Hds & Hlo3 & Hhi3 & _).
  destruct M4 as (y1 & y2 & c7 & -> & [(a3 & -> & Ha3) _] & -> & _).
  rewrite ic_one in Ha1. rewrite ic_zero in Ha2. rewrite ic_slash in Ha3.
  apply Ascii.eqb_eq in Ha1 as <-, Ha2 as <-, Ha3 as <-.
  rewrite (allChars_ext _ _ _ ic_digit) in Hds.
  rewrite (allChars_ext _ _ _ ic_suffix) in Hsuf.
  subst r4 r3 r2 r1 s.
  exists ("10" +:+ String c w3 +:+ "/" +:+ suf), post.
  assert (Hd : consumed
                 (("1" +:+ "0" +:+ "") +:+ String c "" +:+ w3 +:+ ("/" +:+ "") +:+ suf +:+ post)
                 post
               = "10" +:+ String c w3 +:+ "/" +:+ suf).
  { replace (("1" +:+ "0" +:+ "") +:+ String c "" +:+ w3 +:+ ("/" +:+ "") +:+ suf +:+ post)
      with (("10" +:+ String c w3 +:+ "/" +:+ suf) +:+ post).
    - apply consumed_app.
    - rewrite !sapp_assoc, !sapp_cons, !sapp_nil_l. reflexivity. }
  rewrite Hd. split; [rewrite !sapp_assoc, !sapp_cons, !sapp_nil_l; reflexivity |].
  split; [| split; [| reflexivity]].
  - exists c, w3, suf. simpl in Hc, Hhi3. apply negb_true_iff in Hc.
    repeat split; auto. intros ->. simpl in Hlo. lia.
  - intros x Hx. rewrite <- ic_suffix. apply Hstop, Hx.
Qed.

(** X8.  A string the title finder returns is the leftmost DOI-shaped text
    of the title, taken to the end of its run of suffix characters: no
    DOI-shaped text starts earlier in the title, and the character after the
    value, if any, is outside the suffix alphabet. *)
Theorem findDoiFromTitle_leftmost_run (p : Page) (d : string) :
  findDoiFromTitle p = Str d ->
  exists pre post,
    docTitle p = pre +:+ d +:+ post /\
    DoiShaped d /\
    stopsAt isDoiSuffixChar post /\
    forall pre' w' post',
      docTitle p = pre' +:+ w' +:+ post' -> DoiShaped w' ->
      (String.length pre <= String.length pre')%nat.
Proof.
  intros Hd.
  pose proof (matchAllFrom_head reTitle (docTitle p)) as Hhead.
  unfold findDoiFromTitle, stringMatch in Hd. cbn [reTitle global] in Hd. fold reTitle in Hd.
  destruct (matchAllFrom reTitle (docTitle p) 0) as [|x ms]; [discriminate |].
  cbn in Hd. injection Hd as ->. cbn [head] in Hhead.
  destruct (exec reTitle (docTitle p)) as [m|] eqn:E; [| discriminate].
  apply exec_matchAt in E as (pre & rest & Hs & Hat & Hmin).
  apply matchAt_reTitle in Hat as (d' & post & -> & Hshape & Hstop & ->).
  cbn in Hhead. injection Hhead as <-.
  exists pre, post. repeat split; auto.
  intros pre' w' post' Hs' Hw'.
  destruct (Nat.le_gt_cases (String.length pre) (String.length pre')) as [|Hlt]; [assumption |].
  exfalso. specialize (Hmin pre' (w' +:+ post') Hs' Hlt).
  apply reTitle_Lang in Hw'.
  destruct (matchAt_complete reTitle w' post' Hw') as [y Hy].
  rewrite Hmin in Hy. discriminate.
Qed.

Lemma findDoiFromTitle_leftmost_run_witness :
  exists pre post,
    docTitle pageJamaTitle = pre +:+ "10.1001/jama.2020.1234)" +:+ post /\
    DoiShaped "10.1001/jama.2020.1234)" /\
    stopsAt isDoiSuffixChar post /\
    forall pre' w' post',
      docTitle pageJamaTitle = pre' +:+ w' +:+ post' -> DoiShaped w' ->
      (String.length pre <= String.length pre')%nat.
Proof.
  apply (findDoiFromTitle_leftmost_run pageJamaTitle). vm_compute. reflexivity.
Defined.

(** ** The meta-tag scan, further *)

Lemma trimStart_first (s : string) (c : ascii) :
  firstChar (trimStart s) = Some c -> isSpace c = false.
Proof.
  induction s as [|a s IH]; simpl; [discriminate |].
  destruct (isSpace a) eqn:E; [exact IH |].
  simpl. intros H. injection H as <-. exact E.
Qed.

Lemma trimEnd_first (s : string) (c : ascii) :
  firstChar (trimEnd s) = Some c -> firstChar s = Some c.
Proof.
  destruct s as [|a s]; simpl; [discriminate |].
  destruct (trimEnd s); [destruct (isSpace a); [discriminate |] |]; simpl; auto.
Qed.

Lemma trimEnd_last (s : string) (c : ascii) :
  lastChar (trimEnd s) = Some c -> isSpace c = false.
Proof.
  induction s as [|a s IH]; simpl; [discriminate |].
  destruct (trimEnd s) as [|b t] eqn:E.
  - destruct (isSpace a) eqn:Ha; simpl; [discriminate |].
    intros H. injection H as <-. exact Ha.
  - exact IH.
Qed.

(** [trim] leaves no whitespace at either end. *)
Lemma trim_Trimmed (s : string) : Trimmed (trim s).
Proof.
  unfold trim. split.
  - intros c H. apply trimEnd_first in H. exact (trimStart_first _ _ H).
  - apply trimEnd_last.
Qed.

(** X9.  The meta-tag scan returns [null] or a string.  A string it returns
    begins with [10.], has no whitespace at either end, and is the candidate
    of a qualifying [meta] element of the page. *)
Theorem findDoiFromMetaTags_value (p : Page) :
  (findDoiFromMetaTags p = Null \/ exists v, findDoiFromMetaTags p = Str v) /\
  (forall v : string,
      findDoiFromMetaTags p = Str v ->
      startsWith "10." v = true /\ Trimmed v /\
      exists e,
        e ∈ document p /\ tagName e = "meta" /\ qualifying e = true /\ v = candidateOf e).
Proof.
  rewrite findDoiFromMetaTags_last.
  destruct (last (acceptedDois (document p))) as [x|] eqn:E.
  - split; [right; eauto |]. intros v Hv. injection Hv as <-.
    apply last_Some_elem_of, list_elem_of_omap in E as (e & Hin & He).
    apply metaDoi_Some in He as (Hq & -> & H10).
    split; [exact H10 |]. split; [apply trim_Trimmed |].
    exists e. repeat split; auto.
    apply (qualifying_meta false) in Hq. apply String.eqb_eq. exact Hq.
  - split; [left; reflexivity | discriminate].
Qed.

Lemma findDoiFromMetaTags_value_witness :
  startsWith "10." "10.1000/second" = true /\ Trimmed "10.1000/second".
Proof.
  destruct (proj2 (findDoiFromMetaTags_value pageTwoMetas) "10.1000/second")
    as (H1 & H2 & _); [vm_compute; reflexivity | auto].
Defined.

(** X10.  The name of a meta element is compared without regard to letter
    case: replacing an element of the page by one of the same tag, scheme
    and content whose name differs only in case leaves the result of the
    scan unchanged. *)
Theorem findDoiFromMetaTags_name_case
    (p : Page) (pre post : list Element) (e e' : Element) :
  document p = pre ++ e :: post ->
  tagName e' = tagName e ->
  toLowerCase (reflected e' "name") = toLowerCase (reflected e "name") ->
  reflected e' "scheme" = reflected e "scheme" ->
  reflected e' "content" = reflected e "content" ->
  findDoiFromMetaTags (withDocument p (pre ++ e' :: post)) = findDoiFromMetaTags p.
Proof.
  intros Hdoc Htag Hname Hscheme Hcontent.
  assert (Hsame : metaDoi e' = metaDoi e).
  { unfold metaDoi, qualifying, namedForDoi, schemeAllows, candidateOf.
    rewrite Htag, Hname, Hscheme, Hcontent. reflexivity. }
  rewrite !findDoiFromMetaTags_last, Hdoc. cbn [withDocument document].
  rewrite !acceptedDois_app, !acceptedDois_cons, Hsame. reflexivity.
Qed.

Lemma findDoiFromMetaTags_name_case_witness :
  findDoiFromMetaTags pageTwoMetasLower = findDoiFromMetaTags pageTwoMetas.
Proof.
  apply (findDoiFromMetaTags_name_case pageTwoMetas
           [ mkElement "meta" [("name", "citation_doi"); ("content", "10.1000/first")] "";
             mkElement "link" [("rel", "stylesheet")] "" ]
           [ mkElement "meta" [("name", "viewport"); ("content", "10.1000/third")] "" ]
           (mkElement "meta" [("name", "DC.Identifier"); ("content", "doi:10.1000/second")] "")
           (mkElement "meta" [("name", "dc.identifier"); ("content", "doi:10.1000/second")] ""));
    reflexivity.
Defined.

(** X16.  For every qualifying meta element the candidate is the content
    with the first occurrence of the literal [doi:] removed, wherever it
    stands, and then trimmed: a leading [doi:] is stripped, and a content
    without [doi:] is only trimmed.  The callback assigns the candidate if it
    begins with [10.] and keeps its value otherwise, so a page whose one
    meta element it is yields the candidate or [null]; the content
    [doi:10.1234/abc] gives [10.1234/abc]. *)
Theorem metaTags_content_handling (e : Element) :
  qualifying e = true ->
  (forall pre post : string,
      FirstAt (reflected e "content") "doi:" pre post ->
      candidateOf e = trim (pre +:+ post)) /\
  (forall rest : string,
      reflected e "content" = "doi:" +:+ rest -> candidateOf e = trim rest) /\
  (~ Contains (reflected e "content") "doi:" ->
      candidateOf e = trim (reflected e "content")) /\
  (forall doi : JsVal,
      metaStep doi e
      = if startsWith "10." (candidateOf e) then Str (candidateOf e) else doi) /\
  (forall p : Page,
      querySelectorAll p SelMeta = [e] ->
      findDoiFromMetaTags p
      = if startsWith "10." (candidateOf e) then Str (candidateOf e) else Null) /\
  (reflected e "content" = "doi:10.1234/abc" ->
      forall p : Page,
        querySelectorAll p SelMeta = [e] -> findDoiFromMetaTags p = Str "10.1234/abc").
Proof.
  intros Hq.
  assert (Hpage : forall p : Page,
      querySelectorAll p SelMeta = [e] ->
      findDoiFromMetaTags p
      = if startsWith "10." (candidateOf e) then Str (candidateOf e) else Null).
  { intros p Hp. unfold findDoiFromMetaTags. rewrite Hp. cbn [fold_left].
    rewrite (metaStep_qualifying Undefined e Hq).
    destruct (startsWith "10." (candidateOf e)) eqn:E; [| reflexivity].
    apply startsWith_nonempty in E; [| discriminate].
    cbn [truthy]. destruct (String.eqb_spec (candidateOf e) ""); [contradiction | reflexivity]. }
  split; [| split; [| split; [| split; [| split]]]].
  - intros pre post H. unfold candidateOf.
    rewrite (replace_FirstAt "doi:" "" _ pre post H). reflexivity.
  - intros rest H. unfold candidateOf. rewrite H, replace_prefix. reflexivity.
  - intros H. unfold candidateOf. rewrite (replace_absent "doi:" "" _ H). reflexivity.
  - intros doi. apply metaStep_qualifying, Hq.
  - exact Hpage.
  - intros Hc p Hp. rewrite (Hpage p Hp). unfold candidateOf. rewrite Hc. reflexivity.
Qed.

Lemma metaTags_content_handling_witness :
  findDoiFromMetaTags pagePrefixedDoi = Str "10.1234/abc" /\
  candidateOf metaPrefixedDoi = trim "10.1234/abc".
Proof.
  assert (Hq : qualifying metaPrefixedDoi = true) by (vm_compute; reflexivity).
  destruct (metaTags_content_handling metaPrefixedDoi Hq) as (_ & Hprefix & _ & _ & _ & Hex).
  split.
  - apply Hex; reflexivity.
  - apply Hprefix. reflexivity.
Defined.

(** ** The data-attribute scan, further *)

(** X11.  The data-attribute scan depends only on which [data-doi] values
    occur on the page, not on their order or on how often each occurs: two
    pages with the same set of values give the same result. *)
Theorem findDoiFromDataDoiAttributes_set (p q : Page) :
  (forall x : string, x ∈ dataDois (document p) <-> x ∈ dataDois (document q)) ->
  findDoiFromDataDoiAttributes p = findDoiFromDataDoiAttributes q.
Proof.
  intros Hsame.
  assert (Hone : forall a b v,
      (forall x : string, x ∈ a <-> x ∈ b) -> OneDistinct a v -> OneDistinct b v).
  { intros a b v H [Hne Hall]. split.
    - destruct a as [|x a]; [congruence |].
      intros ->. assert (Hx : x ∈ @nil string) by (apply H; left). inversion Hx.
    - intros x Hx. apply Hall, H, Hx. }
  destruct (Nat.eqb_spec (size (list_to_set (dataDois (document p)) : gset string)) 1)
    as [E | E].
  - apply size_one_iff in E as [v Hv].
    rewrite (findDoiFromDataDoiAttributes_one p v Hv).
    symmetry. apply findDoiFromDataDoiAttributes_one. exact (Hone _ _ v Hsame Hv).
  - rewrite (findDoiFromDataDoiAttributes_other p) by (rewrite <- size_one_iff; exact E).
    symmetry. apply findDoiFromDataDoiAttributes_other.
    intros [v Hv]. apply E, size_one_iff. exists v.
    apply (Hone (dataDois (document q)) _ v); [| exact Hv].
    intros x. symmetry. apply Hsame.
Qed.

Lemma findDoiFromDataDoiAttributes_set_witness :
  findDoiFromDataDoiAttributes pageThreeDataDois = findDoiFromDataDoiAttributes pageOneDataDoi.
Proof.
  apply findDoiFromDataDoiAttributes_set. intros x.
  change (dataDois (document pageThreeDataDois))
    with [ "10.1000/182"; "10.1000/182"; "10.1000/182" ].
  change (dataDois (document pageOneDataDoi)) with [ "10.1000/182" ].
  rewrite !elem_of_cons. tauto.
Defined.

(** ** findDoi, further *)

(** X12.  [findDoi] returns [undefined] or a non-empty string that is the
    value of one of the eight finders; the [null], [false] and empty values
    of the finders never come out of it.  It returns [undefined] exactly
    when no finder's value is found. *)
Theorem findDoi_undefined_or_string (p : Page) :
  (findDoi p = Undefined \/
   exists d : string,
     findDoi p = Str d /\ d <> "" /\ exists s : Strategy, finderOf s p = Str d) /\
  (findDoi p = Undefined <-> forall s : Strategy, NotFound (finderOf s p)).
Proof.
  assert (Hnone : (forall s : Strategy, NotFound (finderOf s p)) -> findDoi p = Undefined).
  { intros H. unfold findDoi. rewrite (tryFinders_none p doiFinderFunctions 0); [reflexivity |].
    change doiFinderFunctions with (map finderOf strategies).
    apply Forall_fmap, Forall_forall. intros s _. apply H. }
  assert (Hval : findDoi p = Undefined \/
     exists d : string,
       findDoi p = Str d /\ d <> "" /\ exists s : Strategy, finderOf s p = Str d).
  { unfold findDoi.
    destruct (tryFinders_value p doiFinderFunctions 0) as [H | (f & Hin & Hf & H)];
      [left; exact H | right].
    destruct (found_plain_string (f p) Hf (finders_plain p f Hin)) as (d & Hd & Hne).
    exists d. rewrite H. split; [exact Hd |]. split; [exact Hne |].
    change doiFinderFunctions with (map finderOf strategies) in Hin.
    apply list_elem_of_fmap in Hin as (s & -> & _). eauto. }
  split; [exact Hval |]. split; [| exact Hnone].
  intros Hu s.
  destruct (truthy (finderOf s p)) eqn:E; [| exact E]. exfalso.
  (* a found finder makes the loop return a found value *)
  assert (Hfound : Found (findDoi p)).
  { clear Hnone Hval Hu. unfold findDoi.
    pose proof (finderOf_elem s) as Hin.
    apply list_elem_of_lookup in Hin as [n Hn].
    destruct (split_at_lookup _ _ _ Hn) as [Hsplit _]. rewrite Hsplit.
    generalize (take n doiFinderFunctions) as fs. intros fs.
    generalize 0%nat as i. induction fs as [|g fs IH]; intros i; cbn [app tryFinders].
    - rewrite E. exact E.
    - destruct (truthy (g p)) eqn:G; [exact G |].
      specialize (IH (S i)). destruct (tryFinders (fs ++ _) (S i) p). exact IH. }
  rewrite Hu in Hfound. discriminate.
Qed.

(** ** popupDoi, main and runWithDelay *)

Lemma popupCalls_poppedUp (ui : Ui) (dois : list JsVal) :
  poppedUp ui = true -> popupCalls ui dois = ui.
Proof.
  intros H. induction dois as [|d dois IH]; [reflexivity |].
  unfold popupCalls in *. cbn [fold_left]. unfold popupDoi at 2. rewrite H. exact IH.
Qed.

(** X13.  However often [popupDoi] is called, only the first call appends a
    popup: after the calls the page has no popup if there was no call, and
    otherwise the one popup of the first call, a [div] with the id
    [scite-popup-app] that carries the first DOI.  A call on a state that
    has popped up returns [false] and changes nothing. *)
Theorem popupDoi_only_first (dois : list JsVal) :
  popupCalls initialUi dois
  = match dois with
    | [] => initialUi
    | doi :: _ => mkUi true [ thePopup doi ]
    end /\
  (forall (ui : Ui) (doi : JsVal),
      poppedUp ui = true -> popupDoi ui doi = (ui, Bool false)) /\
  (forall (ui : Ui) (doi : JsVal),
      poppedUp ui = false ->
      popupDoi ui doi = (mkUi true (appended ui ++ [ thePopup doi ]), Undefined)).
Proof.
  split; [| split].
  - destruct dois as [|d dois]; [reflexivity |].
    change (popupCalls initialUi (d :: dois))
      with (popupCalls (mkUi true [ thePopup d ]) dois).
    apply popupCalls_poppedUp. reflexivity.
  - intros ui doi H. unfold popupDoi. rewrite H. reflexivity.
  - intros ui doi H. unfold popupDoi. rewrite H. reflexivity.
Qed.

Lemma popupDoi_only_first_witness :
  popupDoi (mkUi true [ thePopup (Str "10.1000/182") ]) (Str "10.1000/183")
  = (mkUi true [ thePopup (Str "10.1000/182") ], Bool false).
Proof.
  apply (proj1 (proj2 (popupDoi_only_first []))). reflexivity.
Defined.

Lemma main_poppedUp (ui : Ui) (p : Page) : poppedUp ui = true -> main ui p = ui.
Proof.
  intros H. unfold main, popupDoi. rewrite H.
  destruct (negb (truthy (findDoi p))); reflexivity.
Qed.

Lemma mainRuns_poppedUp (ui : Ui) (ps : list Page) :
  poppedUp ui = true -> mainRuns ui ps = ui.
Proof.
  intros H. induction ps as [|q ps IH]; [reflexivity |].
  unfold mainRuns in *. cbn [fold_left]. rewrite (main_poppedUp ui q H). exact IH.
Qed.

Lemma findDoi_found_string (p : Page) :
  Found (findDoi p) -> exists d : string, findDoi p = Str d /\ d <> "".
Proof.
  intros Hfound. apply found_plain_string; [exact Hfound |].
  unfold findDoi in *.
  destruct (tryFinders_value p doiFinderFunctions 0) as [H | (f & Hin & _ & H)].
  - rewrite H in Hfound. discriminate.
  - rewrite H. apply finders_plain, Hin.
Qed.

(** X14.  [main] shows a popup only for a found DOI and at most once: after
    any runs of [main] from the initial state, the page has no popup when
    [findDoi] found nothing on any of the pages, and otherwise exactly one
    popup, which carries the value of [findDoi] on the first page where it
    found one, a non-empty string.  Once a popup is up, [main] changes
    nothing, whatever the page. *)
Theorem main_at_most_one_popup (ps : list Page) :
  mainRuns initialUi ps
  = match List.find (fun q => truthy (findDoi q)) ps with
    | Some q => mkUi true [ thePopup (findDoi q) ]
    | None => initialUi
    end /\
  (forall pop : Popup,
      pop ∈ appended (mainRuns initialUi ps) ->
      popupId pop = "scite-popup-app" /\
      exists d : string, tallyDoi pop = Str d /\ d <> "") /\
  (forall (ui : Ui) (p : Page), poppedUp ui = true -> main ui p = ui).
Proof.
  assert (Hruns : mainRuns initialUi ps
    = match List.find (fun q => truthy (findDoi q)) ps with
      | Some q => mkUi true [ thePopup (findDoi q) ]
      | None => initialUi
      end).
  { induction ps as [|q ps IH]; [reflexivity |].
    cbn [List.find]. unfold mainRuns in *. cbn [fold_left].
    destruct (truthy (findDoi q)) eqn:E.
    - replace (main initialUi q) with (mkUi true [ thePopup (findDoi q) ])
        by (unfold main; rewrite E; reflexivity).
      apply (mainRuns_poppedUp (mkUi true [ thePopup (findDoi q) ]) ps). reflexivity.
    - replace (main initialUi q) with initialUi by (unfold main; rewrite E; reflexivity).
      exact IH. }
  split; [exact Hruns |]. split; [| exact main_poppedUp].
  intros pop Hpop. rewrite Hruns in Hpop.
  destruct (List.find (fun q => truthy (findDoi q)) ps) as [q|] eqn:E.
  - apply find_some in E as [_ Hq].
    cbn [appended] in Hpop. apply list_elem_of_singleton in Hpop as ->.
    split; [reflexivity |]. apply findDoi_found_string, Hq.
  - cbn [appended initialUi] in Hpop. inversion Hpop.
Qed.

Lemma main_at_most_one_popup_witness :
  mainRuns initialUi [ pageNoMarkers; pageTitleOnly; pageMetaAndTitle ]
  = mkUi true [ thePopup (Str "10.5555/from.title") ] /\
  main (mkUi true [ thePopup (Str "10.5555/from.title") ]) pageMetaAndTitle
  = mkUi true [ thePopup (Str "10.5555/from.title") ].
Proof.
  destruct (main_at_most_one_popup [ pageNoMarkers; pageTitleOnly; pageMetaAndTitle ])
    as (Hruns & _ & Hup).
  split.
  - rewrite Hruns. vm_compute. reflexivity.
  - apply Hup. reflexivity.
Defined.

(** X15.  [runWithDelay] schedules [main] after 3000 ms on the host
    [psycnet.apa.org] and after 200 ms on every other host; so whenever the
    Psycnet finder returns a string, the long delay was used. *)
Theorem runWithDelay_long_for_psycnet (p : Page) :
  (myHost p = "psycnet.apa.org" -> runWithDelay p = 3000) /\
  (myHost p <> "psycnet.apa.org" -> runWithDelay p = 200) /\
  (forall v : string, findDoiFromPsycnet p = Str v -> runWithDelay p = 3000).
Proof.
  assert (Hlong : myHost p = "psycnet.apa.org" -> runWithDelay p = 3000).
  { intros H. unfold runWithDelay. rewrite H. reflexivity. }
  split; [exact Hlong |]. split.
  - intros H. unfold runWithDelay, arrayIncludes, longDelayHosts. cbn [existsb].
    destruct (String.eqb_spec (myHost p) "psycnet.apa.org"); [contradiction | reflexivity].
  - intros v Hv. apply Hlong.
    destruct (String.eqb_spec (myHost p) "psycnet.apa.org") as [| Hne]; [assumption |].
    unfold findDoiFromPsycnet in Hv.
    rewrite runRegexOnDoc_scoped in Hv; [discriminate | discriminate | congruence].
Qed.

Lemma runWithDelay_long_for_psycnet_witness :
  runWithDelay pagePsycnet = 3000 /\ runWithDelay pageIeee = 200.
Proof.
  destruct (runWithDelay_long_for_psycnet pagePsycnet) as (_ & _ & Hv).
  destruct (runWithDelay_long_for_psycnet pageIeee) as (_ & Hshort & _).
  split.
  - apply (Hv "1037/0022-3514.79.5.748'>full text</a>"). vm_compute. reflexivity.
  - apply Hshort. discriminate.
Defined.
